(** * The process supervisor of [python_service_manager.py]

    A shallow embedding of [PythonServiceManager]: the supervisor that
    starts the player-analysis worker, probes its health endpoint,
    restarts it when it dies or stops answering, and shuts it down.

    The supervisor is effectful code: it spawns a child, polls it, sends it
    signals, issues HTTP requests, sleeps and logs.  The embedding threads
    one explicit [State] through a small state-and-exception monad.  The
    state holds the two fields of the Python object, the table of children
    spawned so far, the trace of effects performed, and the environment:
    one queue of answers per kind of question the code asks the outside
    world (does the script exist, what did the request return, has the
    child exited, ...).  Theorems quantify over every environment.

    Two further parts follow the supervisor: the runner of
    [run_python_service.py], over the same state and monad, and the
    request handlers of the worker, [player_analysis_service.py]. *)

From stdpp Require Import base option list strings pretty gmap.
From Stdlib Require Import ZArith Lia.

Open Scope Z_scope.
Open Scope string_scope.
Open Scope list_scope.

#[local] Set Warnings "-register-all".

(** ** Python values, as far as [response.json()] can produce them *)

Inductive pyval :=
  | PyNone
  | PyBool (b : bool)
  | PyInt (z : Z)
  | PyFloat (literal : string)
  | PyStr (s : string)
  | PyList (items : list pyval)
  | PyDict (entries : gmap string pyval).

(** ** Exceptions

    Only the class matters to the supervisor: [except Exception] catches
    everything but [KeyboardInterrupt] and [SystemExit], which derive from
    [BaseException] directly. *)

Inductive exn :=
  | ConnectionError      (* requests.exceptions.ConnectionError *)
  | Timeout              (* requests.exceptions.Timeout *)
  | JSONDecodeError      (* raised by response.json() *)
  | AttributeError       (* e.g. [].get *)
  | OSError              (* raised by Popen, or by a system call that fails *)
  | TimeoutExpired       (* subprocess.TimeoutExpired *)
  | ValueError           (* signal.signal called off the main thread *)
  | KeyboardInterrupt
  | SystemExit (code : Z).

Definition is_Exception (e : exn) : bool :=
  match e with
  | KeyboardInterrupt | SystemExit _ => false
  | _ => true
  end.

Definition is_KeyboardInterrupt (e : exn) : bool :=
  match e with
  | KeyboardInterrupt => true
  | _ => false
  end.

(** [str(e)], as it appears in the log lines that format an exception. *)
Definition exn_str (e : exn) : string :=
  match e with
  | ConnectionError => "ConnectionError"
  | Timeout => "Timeout"
  | JSONDecodeError => "JSONDecodeError"
  | AttributeError => "AttributeError"
  | OSError => "OSError"
  | TimeoutExpired => "TimeoutExpired"
  | ValueError => "ValueError"
  | KeyboardInterrupt => "KeyboardInterrupt"
  | SystemExit _ => "SystemExit"
  end.

(** ** The outside world *)

Definition pid := nat.

Inductive pstatus :=
  | Running
  | Exited (code : Z).

Inductive signal := SIGTERM | SIGKILL.

(** What [response.json()] finds in the body. *)
Inductive body :=
  | Malformed
  | Json (v : pyval).

Record response := mkResponse { status_code : Z; payload : body }.

(** What [requests.get(url, timeout=5)] runs into. *)
Inductive http_outcome :=
  | Refused                     (* connection error *)
  | TimedOut                    (* no answer within the timeout *)
  | Answered (r : response).

(** What [poll()] finds when it looks at a child it has not reaped yet.
    [PollError] stands for the unexpected: a failure of the call itself,
    raised as [OSError]. *)
Inductive poll_answer :=
  | StillRunning
  | Gone (code : Z)
  | PollError.

Inductive stream := PIPE | INHERIT.

(** The keyword arguments of the [subprocess.Popen] call. *)
Record popen_args := mkPopenArgs {
  argv : list string;
  stdout : stream;
  stderr : stream;
  text : bool;
  bufsize : Z;
  universal_newlines : bool }.

(** Effects, in the order performed.  [EvTerminate], [EvKill] and [EvWait]
    record the method calls the supervisor makes on its handle;
    [EvSignal] records a signal that really reaches the child ([Popen]
    sends nothing to a child whose return code it already holds);
    [EvExit] records that the child is seen to be gone; [EvInterrupt]
    records a SIGINT reaching the supervisor itself.  [EvShutdown] marks
    an entry into [shutdown()]. *)
Inductive event :=
  | EvLog (line : string)
  | EvGet (url : string) (timeout : Z)
  | EvPopen (p : pid) (args : popen_args)
  | EvTerminate (p : pid)
  | EvKill (p : pid)
  | EvWait (p : pid) (timeout : option Z)
  | EvSignal (p : pid) (s : signal)
  | EvExit (p : pid) (code : Z)
  | EvSleep (secs : Z)
  | EvInterrupt
  | EvShutdown.

(** The environment: the answers the outside world will give, one queue
    per kind of question, consumed front first.  An exhausted queue
    answers with the quiet default noted at each operation. *)
Record Env := mkEnv {
  exists_q : list bool;          (* Path(script).exists() *)
  spawn_q : list bool;           (* Popen succeeds (true) or raises OSError *)
  http_q : list http_outcome;    (* successive health requests *)
  poll_q : list poll_answer;     (* poll() of a child not yet known to be gone *)
  wait_q : list (option Z);      (* wait() of a running child: exit code, if it exits in time *)
  sleep_q : list bool }.         (* a SIGINT arrives during this sleep *)

Record State := mkState {
  process : option pid;          (* self.process *)
  running : bool;                (* self.running *)
  handlers : bool;               (* run() has installed its signal handlers *)
  procs : list pstatus;          (* every child spawned so far, by pid *)
  trace : list event;            (* newest event first *)
  env : Env }.

Definition quiet : Env := mkEnv [] [] [] [] [] [].

(** The state right after [PythonServiceManager()]. *)
Definition init (e : Env) : State := mkState None false false [] [] e.

(** The events in the order they happened. *)
Definition history (st : State) : list event := rev (trace st).

(** ** The monad: state, exceptions, and running out of fuel *)

Inductive result (A : Type) :=
  | Ret (a : A)
  | Raise (e : exn)
  | OutOfFuel.
Arguments Ret {A} a.
Arguments Raise {A} e.
Arguments OutOfFuel {A}.

Definition M (A : Type) : Type := State -> result A * State.

Definition ret {A} (a : A) : M A := fun st => (Ret a, st).

Definition raise {A} (e : exn) : M A := fun st => (Raise e, st).

Definition bind {A B} (m : M A) (k : A -> M B) : M B :=
  fun st =>
    match m st with
    | (Ret a, st') => k a st'
    | (Raise e, st') => (Raise e, st')
    | (OutOfFuel, st') => (OutOfFuel, st')
    end.

Declare Scope sup_scope.
Delimit Scope sup_scope with sup.
Bind Scope sup_scope with M.
Notation "x <- m ;; k" := (bind m (fun x => k))
  (at level 100, m at next level, k at level 200, right associativity) : sup_scope.
Notation "m ;; k" := (bind m (fun _ => k))
  (at level 100, k at level 200, right associativity) : sup_scope.
Open Scope sup_scope.

(** The [except] clauses of a [try]: the handler chosen for an exception,
    if any clause matches it. *)
Definition clauses (A : Type) : Type := exn -> option (M A).

(** [except C as e: h e], for the class [C] recognised by [cls]. *)
Definition except {A} (cls : exn -> bool) (h : exn -> M A) : clauses A :=
  fun e => if cls e then Some (h e) else None.

(** Two clauses in a row: the first that matches wins. *)
Definition or_except {A} (c1 c2 : clauses A) : clauses A :=
  fun e => match c1 e with Some h => Some h | None => c2 e end.

(** [try: m  except ...].  Only what [m] raises is handled; what a
    handler raises goes to the caller. *)
Definition try_except {A} (m : M A) (cs : clauses A) : M A :=
  fun st =>
    match m st with
    | (Raise e, st') =>
        match cs e with
        | Some h => h st'
        | None => (Raise e, st')
        end
    | other => other
    end.

(** [try: m  finally: fin].  The outcome of [m] stands unless [fin] itself
    raises. *)
Definition try_finally {A} (m : M A) (fin : M unit) : M A :=
  fun st =>
    match m st with
    | (OutOfFuel, st') => (OutOfFuel, st')
    | (r, st') =>
        match fin st' with
        | (Ret _, st'') => (r, st'')
        | (Raise e, st'') => (Raise e, st'')
        | (OutOfFuel, st'') => (OutOfFuel, st'')
        end
    end.

(** ** State access *)

Definition with_process (o : option pid) (st : State) : State :=
  mkState o (running st) (handlers st) (procs st) (trace st) (env st).
Definition with_running (b : bool) (st : State) : State :=
  mkState (process st) b (handlers st) (procs st) (trace st) (env st).
Definition with_handlers (b : bool) (st : State) : State :=
  mkState (process st) (running st) b (procs st) (trace st) (env st).
Definition with_procs (ps : list pstatus) (st : State) : State :=
  mkState (process st) (running st) (handlers st) ps (trace st) (env st).
Definition with_trace (t : list event) (st : State) : State :=
  mkState (process st) (running st) (handlers st) (procs st) t (env st).
Definition with_env (e : Env) (st : State) : State :=
  mkState (process st) (running st) (handlers st) (procs st) (trace st) e.

Definition get_process : M (option pid) := fun st => (Ret (process st), st).
Definition get_running : M bool := fun st => (Ret (running st), st).
Definition set_process (o : option pid) : M unit := fun st => (Ret tt, with_process o st).
Definition set_running (b : bool) : M unit := fun st => (Ret tt, with_running b st).
Definition emit (e : event) : M unit := fun st => (Ret tt, with_trace (e :: trace st) st).

(** The status [Popen] holds for a handle.  A pid that was never spawned
    has no child behind it. *)
Definition status_of (st : State) (p : pid) : pstatus :=
  default (Exited 0) (procs st !! p).

Definition mark_exited (p : pid) (code : Z) (st : State) : State :=
  with_procs (<[p := Exited code]> (procs st)) st.

(** ** The operations of the standard library the supervisor calls *)

Definition log_prefix : string := "[ServiceManager] ".

(** [self.log(message)] *)
Definition log (message : string) : M unit :=
  emit (EvLog (log_prefix +:+ message)).

(** [Path(script).exists()]; an exhausted queue answers that it does. *)
Definition path_exists (path : string) : M bool :=
  fun st =>
    let e := env st in
    (Ret (hd true (exists_q e)),
     with_env (mkEnv (tl (exists_q e)) (spawn_q e) (http_q e) (poll_q e)
                     (wait_q e) (sleep_q e)) st).

(** [subprocess.Popen(...)]: a new running child with the next pid, or
    [OSError]; an exhausted queue lets the spawn succeed. *)
Definition popen (args : popen_args) : M pid :=
  fun st =>
    let e := env st in
    let st1 := with_env (mkEnv (exists_q e) (tl (spawn_q e)) (http_q e) (poll_q e)
                               (wait_q e) (sleep_q e)) st in
    if hd true (spawn_q e) then
      let p := length (procs st1) in
      (Ret p, with_trace (EvPopen p args :: trace st1) (with_procs (procs st1 ++ [Running]) st1))
    else (Raise OSError, st1).

(** [requests.get(url, timeout=t)]; an exhausted queue refuses the
    connection. *)
Definition requests_get (url : string) (t : Z) : M response :=
  fun st =>
    let e := env st in
    let st1 := with_trace (EvGet url t :: trace st)
                 (with_env (mkEnv (exists_q e) (spawn_q e) (tl (http_q e)) (poll_q e)
                                  (wait_q e) (sleep_q e)) st) in
    match hd Refused (http_q e) with
    | Refused => (Raise ConnectionError, st1)
    | TimedOut => (Raise Timeout, st1)
    | Answered r => (Ret r, st1)
    end.

(** [response.json()] *)
Definition json (r : response) : M pyval :=
  match payload r with
  | Malformed => raise JSONDecodeError
  | Json v => ret v
  end.

(** [data.get(key)]: only a dict has the method. *)
Definition py_get (data : pyval) (key : string) : M pyval :=
  match data with
  | PyDict d => ret (default PyNone (d !! key))
  | _ => raise AttributeError
  end.

(** [v == s] for a string literal [s]. *)
Definition py_eq_str (v : pyval) (s : string) : bool :=
  match v with
  | PyStr s' => bool_decide (s' = s)
  | _ => false
  end.

(** [p.poll()]: the cached return code, or a look at the child; an
    exhausted queue finds it still running. *)
Definition poll (p : pid) : M (option Z) :=
  fun st =>
    match status_of st p with
    | Exited c => (Ret (Some c), st)
    | Running =>
        let e := env st in
        let st1 := with_env (mkEnv (exists_q e) (spawn_q e) (http_q e) (tl (poll_q e))
                                   (wait_q e) (sleep_q e)) st in
        match hd StillRunning (poll_q e) with
        | StillRunning => (Ret None, st1)
        | Gone c => (Ret (Some c), with_trace (EvExit p c :: trace st1) (mark_exited p c st1))
        | PollError => (Raise OSError, st1)
        end
    end.

(** [p.terminate()]: nothing is sent to a child already reaped. *)
Definition terminate (p : pid) : M unit :=
  fun st =>
    let st0 := with_trace (EvTerminate p :: trace st) st in
    match status_of st p with
    | Exited _ => (Ret tt, st0)
    | Running => (Ret tt, with_trace (EvSignal p SIGTERM :: trace st0) st0)
    end.

(** [p.kill()]: SIGKILL cannot be ignored, the child is gone. *)
Definition kill (p : pid) : M unit :=
  fun st =>
    let st0 := with_trace (EvKill p :: trace st) st in
    match status_of st p with
    | Exited _ => (Ret tt, st0)
    | Running =>
        (Ret tt, with_trace (EvExit p (-9) :: EvSignal p SIGKILL :: trace st0)
                   (mark_exited p (-9) st0))
    end.

(** [p.wait(timeout=t)] and [p.wait()]: a child that does not exit in
    time raises [TimeoutExpired]; without a timeout the call never
    returns.  An exhausted queue lets the child exit with code 0. *)
Definition wait (p : pid) (t : option Z) : M Z :=
  fun st =>
    let st0 := with_trace (EvWait p t :: trace st) st in
    match status_of st p with
    | Exited c => (Ret c, st0)
    | Running =>
        let e := env st in
        let st1 := with_env (mkEnv (exists_q e) (spawn_q e) (http_q e) (poll_q e)
                                   (tl (wait_q e)) (sleep_q e)) st0 in
        match hd (Some 0) (wait_q e) with
        | Some c => (Ret c, with_trace (EvExit p c :: trace st1) (mark_exited p c st1))
        | None =>
            match t with
            | Some _ => (Raise TimeoutExpired, st1)
            | None => (OutOfFuel, st1)
            end
        end
    end.

(** ** The supervisor *)

Definition service_url : string := "http://localhost:5001".
Definition health_endpoint : string := service_url +:+ "/api/player-analysis/health".
Definition service_script : string :=
  "ai-services/player-analysis/player_analysis_service.py".

(** Stands for [sys.executable], the path of the running interpreter. *)
Definition sys_executable : string := "python3".

(** The arguments of the one [Popen] call of [start_service]. *)
Definition popen_call : popen_args :=
  mkPopenArgs [sys_executable; service_script] PIPE PIPE true 1 true.

Definition is_TimeoutExpired (e : exn) : bool :=
  match e with
  | TimeoutExpired => true
  | _ => false
  end.

(** [shutdown()] *)
Definition shutdown : M unit :=
  emit EvShutdown;;
  set_running false;;
  o <- get_process;;
  match o with
  | Some p =>
      log "Shutting down service...";;
      terminate p;;
      try_except (wait p (Some 10);; ret tt)
        (except is_TimeoutExpired (fun _ => kill p;; wait p None;; ret tt));;
      log "Service shutdown complete"
  | None => ret tt
  end.

(** The handler [run()] installs for SIGINT and SIGTERM. *)
Definition signal_handler (signum : nat) : M unit :=
  log ("Received signal " +:+ pretty signum);;
  shutdown;;
  raise (SystemExit 0).

(** [time.sleep(secs)].  A SIGINT that arrives during the sleep runs the
    installed handler, or raises [KeyboardInterrupt] when none is
    installed; an exhausted queue lets the sleep finish. *)
Definition sleep (secs : Z) : M unit :=
  fun st =>
    let e := env st in
    let st1 := with_trace (EvSleep secs :: trace st)
                 (with_env (mkEnv (exists_q e) (spawn_q e) (http_q e) (poll_q e)
                                  (wait_q e) (tl (sleep_q e))) st) in
    if hd false (sleep_q e) then
      let st2 := with_trace (EvInterrupt :: trace st1) st1 in
      if handlers st then signal_handler 2 st2 else (Raise KeyboardInterrupt, st2)
    else (Ret tt, st1).

(** [self.process and self.process.poll() is None] *)
Definition process_is_running : M bool :=
  o <- get_process;;
  match o with
  | Some p => c <- poll p;; ret (bool_decide (c = None))
  | None => ret false
  end.

(** [self.process and self.process.poll() is not None] *)
Definition process_has_exited : M bool :=
  o <- get_process;;
  match o with
  | Some p => c <- poll p;; ret (bool_decide (c <> None))
  | None => ret false
  end.

(** [start_service()] *)
Definition start_service : M bool :=
  try_except
    (alive <- process_is_running;;
     if alive then
       log "Service already running";;
       ret true
     else
       log "Starting Python ML service...";;
       found <- path_exists service_script;;
       if negb found then
         log ("ERROR: Service script not found: " +:+ service_script);;
         ret false
       else
         p <- popen popen_call;;
         set_process (Some p);;
         log ("Service started with PID: " +:+ pretty p);;
         ret true)
    (except is_Exception (fun e =>
       log ("Failed to start service: " +:+ exn_str e);;
       ret false)).

(** [check_health()] *)
Definition check_health : M bool :=
  try_except
    (response <- requests_get health_endpoint 5;;
     if (status_code response =? 200)%Z then
       data <- json response;;
       status <- py_get data "status";;
       ret (py_eq_str status "healthy")
     else ret false)
    (except is_Exception (fun _ => ret false)).

(** The [for i in range(n)] loop of [wait_for_startup] together with the
    two statements after it. *)
Fixpoint startup_loop (n : nat) : M bool :=
  match n with
  | O =>
      log "Service failed to start within timeout";;
      ret false
  | S n' =>
      healthy <- check_health;;
      if healthy then
        log "Service is healthy and ready!";;
        ret true
      else
        dead <- process_has_exited;;
        if dead then
          log "Service process died during startup";;
          ret false
        else
          sleep 1;;
          startup_loop n'
  end.

(** [wait_for_startup(max_wait)]; the default of [max_wait] is 30. *)
Definition wait_for_startup (max_wait : nat) : M bool :=
  log "Waiting for service to be ready...";;
  startup_loop max_wait.

(** How one pass through the body of a [while] loop ends. *)
Inductive flow := Next | Break.

(** The [try] block of one iteration of [monitor_service]. *)
Definition monitor_body : M flow :=
  dead <- process_has_exited;;
  f <- (if dead then
          log "Service process died, restarting...";;
          start_service;;
          ok <- wait_for_startup 30;;
          if negb ok then
            log "Failed to restart service";;
            ret Break
          else ret Next
        else
          healthy <- check_health;;
          if negb healthy then
            log "Service health check failed, restarting...";;
            o <- get_process;;
            match o with
            | Some p => terminate p;; sleep 2
            | None => ret tt
            end;;
            start_service;;
            ok <- wait_for_startup 30;;
            if negb ok then
              log "Failed to restart service";;
              ret Break
            else ret Next
          else ret Next);;
  match f with
  | Break => ret Break
  | Next => sleep 10;; ret Next
  end.

(** One iteration of the [while] loop: the [try] block and its two
    [except] clauses. *)
Definition monitor_iteration : M flow :=
  try_except monitor_body
    (or_except
       (except is_KeyboardInterrupt (fun _ =>
          log "Received interrupt signal";;
          ret Break))
       (except is_Exception (fun e =>
          log ("Monitor error: " +:+ exn_str e);;
          sleep 5;;
          ret Next))).

(** [while self.running: ...], with [fuel] bounding the iterations. *)
Fixpoint monitor_loop (fuel : nat) : M unit :=
  r <- get_running;;
  if r then
    match fuel with
    | O => fun st => (OutOfFuel, st)
    | S fuel' =>
        f <- monitor_iteration;;
        match f with
        | Break => ret tt
        | Next => monitor_loop fuel'
        end
    end
  else ret tt.

(** [monitor_service()] *)
Definition monitor_service (fuel : nat) : M unit :=
  log "Starting service monitoring...";;
  monitor_loop fuel.

(** [signal.signal(SIGINT, signal_handler)] and the same for SIGTERM.
    Python installs a handler from the main thread only: called from any
    other thread, the first [signal.signal] raises [ValueError] and
    nothing is installed. *)
Definition install_handlers (main_thread : bool) : M unit :=
  if main_thread then fun st => (Ret tt, with_handlers true st)
  else raise ValueError.

(** The [try ... except Exception ...] of [run()].  [Some b] is an early
    [return b]; [None] falls through to the statement after the [try]. *)
Definition run_try (fuel : nat) : M (option bool) :=
  try_except
    (started <- start_service;;
     if negb started then
       log "Failed to start service";;
       ret (Some false)
     else
       ready <- wait_for_startup 30;;
       if negb ready then
         log "Service failed to become ready";;
         ret (Some false)
       else
         log "Service is running and healthy";;
         log ("Health endpoint: " +:+ health_endpoint);;
         log "Press Ctrl+C to stop";;
         monitor_service fuel;;
         ret None)
    (except is_Exception (fun e =>
       log ("Service manager error: " +:+ exn_str e);;
       ret None)).

(** [run()], called from the main thread or from another one.  The two
    statements before the [try] are outside its [finally]. *)
Definition run (main_thread : bool) (fuel : nat) : M bool :=
  set_running true;;
  install_handlers main_thread;;
  r <- try_finally (run_try fuel) shutdown;;
  match r with
  | Some b => ret b
  | None => ret true
  end.

(** The [__main__] block: [sys.exit(0 if success else 1)].  The block
    runs in the main thread of the interpreter. *)
Definition main (fuel : nat) : M unit :=
  success <- run true fuel;;
  raise (SystemExit (if success then 0 else 1)).

(** The exit status of the supervisor process, when it exits through
    [sys.exit]. *)
Definition exit_status {A} (r : result A) : option Z :=
  match r with
  | Raise (SystemExit c) => Some c
  | _ => None
  end.

(** * Properties *)

(** ** Words of the specification used in the statements *)

(** The next health request is answered with status 200 and a JSON object
    whose [status] field is the string [healthy]. *)
Definition reports_healthy (o : http_outcome) : Prop :=
  exists d : gmap string pyval,
    o = Answered (mkResponse 200 (Json (PyDict d))) /\
    d !! "status" = Some (PyStr "healthy").

(** The outcome the next health request will meet. *)
Definition next_probe (st : State) : http_outcome := hd Refused (http_q (env st)).

(** ** Unfolding the monad *)

(** Log lines stay as written while goals are simplified. *)
#[local] Arguments String.append : simpl never.
#[local] Arguments pretty : simpl never.

Ltac unfold_monad :=
  unfold bind, ret, raise, try_except, try_finally, except, or_except,
    get_process, get_running, set_process, set_running, emit, log in *.

Lemma bind_ret_l {A B} (a : A) (k : A -> M B) st : bind (ret a) k st = k a st.
Proof. reflexivity. Qed.

Lemma bind_eq {A B} (m : M A) (k : A -> M B) st r st' :
  m st = (r, st') ->
  bind m k st = match r with
                | Ret a => k a st'
                | Raise e => (Raise e, st')
                | OutOfFuel => (OutOfFuel, st')
                end.
Proof. unfold bind. intros ->. reflexivity. Qed.

(** ** check_health *)

Lemma py_eq_str_true v s : py_eq_str v s = true <-> v = PyStr s.
Proof.
  destruct v; simpl; try (split; [discriminate | congruence]).
  rewrite bool_decide_eq_true. split; congruence.
Qed.

(** What [check_health] returns, read off the outcome of the request. *)
Definition health_of (o : http_outcome) : bool :=
  match o with
  | Answered r =>
      if (status_code r =? 200)%Z then
        match payload r with
        | Json (PyDict d) => py_eq_str (default PyNone (d !! "status")) "healthy"
        | _ => false
        end
      else false
  | _ => false
  end.

(** The state [check_health] leaves: one answer consumed, one request
    traced. *)
Definition after_probe (st : State) : State :=
  let e := env st in
  with_trace (EvGet health_endpoint 5 :: trace st)
    (with_env (mkEnv (exists_q e) (spawn_q e) (tl (http_q e)) (poll_q e)
                     (wait_q e) (sleep_q e)) st).

Lemma check_health_eq st :
  check_health st = (Ret (health_of (next_probe st)), after_probe st).
Proof.
  unfold check_health, next_probe, after_probe, requests_get, json, py_get.
  unfold_monad.
  destruct (hd Refused (http_q (env st))) as [| |[code pl]]; simpl; try reflexivity.
  destruct (code =? 200)%Z; [|reflexivity].
  destruct pl as [|[]]; reflexivity.
Qed.

Lemma health_of_true o : health_of o = true <-> reports_healthy o.
Proof.
  unfold reports_healthy. destruct o as [| |[code pl]]; simpl.
  1,2: split; [discriminate | intros (d & ? & _); discriminate].
  destruct (Z.eqb_spec code 200) as [->|Hne].
  - destruct pl as [|v].
    { split; [discriminate | intros (d & ? & _); discriminate]. }
    destruct v; try (split; [discriminate | intros (d & ? & _); discriminate]).
    rewrite py_eq_str_true. split.
    + intros H. exists entries. split; [reflexivity|].
      destruct (entries !! "status"); simpl in H; congruence.
    + intros (d & Heq & Hd). injection Heq as ->. rewrite Hd. reflexivity.
  - split; [discriminate|]. intros (d & Heq & _). congruence.
Qed.

(** C3: [check_health] always returns a boolean, never an exception, and
    the boolean is true exactly when the request is answered with status
    200 and a JSON object whose [status] field is the string [healthy]. *)
Theorem check_health_iff (st : State) :
  exists b : bool,
    fst (check_health st) = Ret b /\
    (b = true <-> reports_healthy (next_probe st)).
Proof.
  exists (health_of (next_probe st)). rewrite check_health_eq. split.
  - reflexivity.
  - apply health_of_true.
Qed.

(** C10: a 200 answer whose JSON value is anything but an object with
    [status] mapped to the string [healthy] makes [check_health] return
    false; it does not raise. *)
Theorem check_health_200_not_healthy (st : State) (v : pyval) :
  next_probe st = Answered (mkResponse 200 (Json v)) ->
  ~ (exists d : gmap string pyval, v = PyDict d /\ d !! "status" = Some (PyStr "healthy")) ->
  fst (check_health st) = Ret false.
Proof.
  intros Hq Hv. rewrite check_health_eq. simpl. f_equal.
  apply not_true_is_false. rewrite health_of_true. intros (d & Heq & Hd).
  apply Hv. exists d. split; [congruence | exact Hd].
Qed.

(** A 200 answer carrying a JSON object without the [status] key. *)
Definition env_no_status : Env :=
  mkEnv [] [] [Answered (mkResponse 200 (Json (PyDict {[ "service" := PyStr "x" ]})))]
        [] [] [].

Lemma check_health_200_not_healthy_witness :
  fst (check_health (init env_no_status)) = Ret false.
Proof.
  apply (check_health_200_not_healthy (init env_no_status)
           (PyDict {[ "service" := PyStr "x" ]})).
  - reflexivity.
  - intros (d & Heq & Hd). injection Heq as <-. vm_compute in Hd. discriminate.
Defined.


(** ** start_service *)

Ltac unfold_ops :=
  unfold process_is_running, process_has_exited, poll, terminate, kill, wait,
    path_exists, popen, requests_get, status_of, mark_exited in *;
  unfold_monad.


(** A supervisor that owns one running child, in a quiet world. *)
Definition one_child : State := mkState (Some 0%nat) true false [Running] [] quiet.

(** A world without the script, and a world where spawning fails. *)
Definition env_no_script : Env := mkEnv [false] [] [] [] [] [].
Definition env_no_spawn : Env := mkEnv [] [false] [] [] [] [].


(** ** shutdown *)

(** How many events of a trace satisfy [f]. *)
Fixpoint count (f : event -> bool) (t : list event) : nat :=
  match t with
  | [] => 0
  | e :: t' => ((if f e then 1 else 0) + count f t')%nat
  end.

Definition is_terminate (e : event) : bool :=
  match e with EvTerminate _ => true | _ => false end.

Definition is_shutdown (e : event) : bool :=
  match e with EvShutdown => true | _ => false end.

Definition is_interrupt (e : event) : bool :=
  match e with EvInterrupt => true | _ => false end.

Definition is_popen (e : event) : bool :=
  match e with EvPopen _ _ => true | _ => false end.

(** The bounded wait of [shutdown] on [p] would run into its timeout. *)
Definition wait_times_out (st : State) (p : pid) : Prop :=
  status_of st p = Running /\ hd (Some 0) (wait_q (env st)) = None.

(** What a [shutdown()] adds to the trace when its handle [p] is already
    reaped, newest first: the two log lines and the calls to [terminate]
    and [wait], but no signal. *)
Definition shutdown_again (p : pid) : list event :=
  [EvLog (log_prefix +:+ "Service shutdown complete");
   EvWait p (Some 10);
   EvTerminate p;
   EvLog (log_prefix +:+ "Shutting down service...");
   EvShutdown].

(** C5, as stated, fails: the second [shutdown()] calls [terminate()] on
    the reaped handle once more. *)
Lemma shutdown_twice_terminates_again :
  let st1 := snd (shutdown one_child) in
  let st2 := snd (shutdown st1) in
  fst (shutdown one_child) = Ret tt /\
  status_of st1 0%nat = Exited 0 /\
  count is_terminate (trace st1) = 1%nat /\
  fst (shutdown st1) = Ret tt /\
  count is_terminate (trace st2) = 2%nat.
Proof.
  vm_compute. repeat split; reflexivity.
Qed.

(** A [shutdown()] whose handle is already reaped: two calls on the
    handle, two log lines, no signal. *)
Lemma shutdown_reaped (st : State) (p : pid) (c : Z) :
  process st = Some p -> status_of st p = Exited c ->
  shutdown st =
    (Ret tt, with_trace (shutdown_again p ++ trace st) (with_running false st)).
Proof.
  destruct st as [o r h ps t e]. cbn. intros -> Hs.
  unfold shutdown, shutdown_again, is_TimeoutExpired. unfold_ops. cbn in *.
  rewrite Hs. cbn. rewrite Hs. reflexivity.
Qed.

(** [shutdown()] with a running child, by what the bounded wait meets. *)
Lemma shutdown_running (st : State) (p : pid) :
  process st = Some p -> procs st !! p = Some Running ->
  let e := env st in
  let e' := mkEnv (exists_q e) (spawn_q e) (http_q e) (poll_q e)
                  (tl (wait_q e)) (sleep_q e) in
  let asked := [EvWait p (Some 10); EvSignal p SIGTERM; EvTerminate p;
                EvLog (log_prefix +:+ "Shutting down service..."); EvShutdown] in
  shutdown st =
    match hd (Some 0) (wait_q e) with
    | Some c =>
        (Ret tt,
         mkState (Some p) false (handlers st) (<[p := Exited c]> (procs st))
           (EvLog (log_prefix +:+ "Service shutdown complete") :: EvExit p c
              :: asked ++ trace st) e')
    | None =>
        (Ret tt,
         mkState (Some p) false (handlers st) (<[p := Exited (-9)]> (procs st))
           (EvLog (log_prefix +:+ "Service shutdown complete") :: EvWait p None
              :: EvExit p (-9) :: EvSignal p SIGKILL :: EvKill p
              :: asked ++ trace st) e')
    end.
Proof.
  destruct st as [o r h ps t e]. cbn. intros -> Hp.
  assert (Hlt : (p < length ps)%nat) by (eapply lookup_lt_Some; eauto).
  unfold shutdown, is_TimeoutExpired. unfold_ops. cbn. rewrite Hp. cbn. rewrite Hp. cbn.
  destruct (hd (Some 0) (wait_q e)) as [c|]; cbn; [reflexivity|].
  rewrite Hp. cbn. rewrite list_lookup_insert_eq by lia. reflexivity.
Qed.

(** [shutdown()] always returns; it raises nothing. *)
Lemma shutdown_returns (st : State) : fst (shutdown st) = Ret tt.
Proof.
  destruct (process st) as [p|] eqn:Ho.
  - destruct (procs st !! p) as [[|c]|] eqn:Hp.
    + rewrite (shutdown_running st p Ho Hp). destruct (hd _ _); reflexivity.
    + rewrite (shutdown_reaped st p c Ho); [reflexivity|].
      unfold status_of. rewrite Hp. reflexivity.
    + rewrite (shutdown_reaped st p 0 Ho); [reflexivity|].
      unfold status_of. rewrite Hp. reflexivity.
  - destruct st as [o r h ps t e]. cbn in Ho. subst o. reflexivity.
Qed.

(** [shutdown()] leaves [running] false. *)
Lemma shutdown_stops (st : State) : running (snd (shutdown st)) = false.
Proof.
  destruct (process st) as [p|] eqn:Ho.
  - destruct (procs st !! p) as [[|c]|] eqn:Hp.
    + rewrite (shutdown_running st p Ho Hp). destruct (hd _ _); reflexivity.
    + rewrite (shutdown_reaped st p c Ho); [reflexivity|].
      unfold status_of. rewrite Hp. reflexivity.
    + rewrite (shutdown_reaped st p 0 Ho); [reflexivity|].
      unfold status_of. rewrite Hp. reflexivity.
  - destruct st as [o r h ps t e]. cbn in Ho. subst o. reflexivity.
Qed.

(** C5, amended: [shutdown] always returns and leaves [running] false;
    with no handle it does nothing else; with a handle it calls
    [terminate], waits at most 10 seconds and kills exactly when that
    wait times out; and a second call right after it returns normally,
    sends no signal and changes nothing but the trace, to which it adds
    the same two calls and log lines again. *)
Theorem shutdown_idempotent (st : State) :
  let st1 := snd (shutdown st) in
  fst (shutdown st) = Ret tt /\
  running st1 = false /\
  (process st = None ->
     st1 = with_trace (EvShutdown :: trace st) (with_running false st)) /\
  (forall p : pid, process st = Some p ->
     (exists new : list event,
        trace st1 = new ++ trace st /\
        EvTerminate p ∈ new /\ EvWait p (Some 10) ∈ new /\
        (EvKill p ∈ new <-> wait_times_out st p)) /\
     shutdown st1 = (Ret tt, with_trace (shutdown_again p ++ trace st1) st1)).
Proof.
  cbn zeta. split; [apply shutdown_returns|].
  destruct (process st) as [p|] eqn:Ho.
  - assert (Hcase : procs st !! p = Some Running \/ exists c, status_of st p = Exited c).
    { unfold status_of. destruct (procs st !! p) as [[|c]|]; cbn; eauto. }
    destruct Hcase as [Hp|[c Hc]].
    + assert (Hlt : (p < length (procs st))%nat) by (eapply lookup_lt_Some; eauto).
      assert (Hrun : status_of st p = Running) by (unfold status_of; rewrite Hp; reflexivity).
      rewrite (shutdown_running st p Ho Hp).
      destruct (hd (Some 0) (wait_q (env st))) as [c|] eqn:Hw; cbn -[shutdown].
      * split; [reflexivity|]. split; [discriminate|]. intros p' [= <-]. split.
        -- eexists [_; _; _; _; _; _; _]. split; [reflexivity|].
           unfold wait_times_out. rewrite Hrun, Hw. rewrite !elem_of_cons.
           split; [auto 10|]. split; [auto 10|]. split; [|intros [_ ?]; discriminate].
           intros H. exfalso. repeat (destruct H as [H|H]; [discriminate|]). inversion H.
        -- erewrite shutdown_reaped; [reflexivity | reflexivity |].
           unfold status_of; cbn. rewrite list_lookup_insert_eq by lia. reflexivity.
      * split; [reflexivity|]. split; [discriminate|]. intros p' [= <-]. split.
        -- eexists [_; _; _; _; _; _; _; _; _; _]. split; [reflexivity|].
           unfold wait_times_out. rewrite Hrun, Hw. rewrite !elem_of_cons.
           split; [auto 12|]. split; [auto 12|]. split; auto 12.
        -- erewrite shutdown_reaped; [reflexivity | reflexivity |].
           unfold status_of; cbn. rewrite list_lookup_insert_eq by lia. reflexivity.
    + rewrite (shutdown_reaped st p c Ho Hc). cbn -[shutdown].
      split; [reflexivity|]. split; [discriminate|]. intros p' [= <-]. split.
      * exists (shutdown_again p). split; [reflexivity|]. unfold shutdown_again, wait_times_out.
        rewrite !elem_of_cons.
        split; [auto 10|]. split; [auto 10|]. split; [|intros [? _]; congruence].
        intros H. exfalso. repeat (destruct H as [H|H]; [discriminate|]). inversion H.
      * erewrite shutdown_reaped; [reflexivity | exact Ho | exact Hc].
  - destruct st as [o r h ps t e]. cbn in Ho. subst o. cbn.
    split; [reflexivity|]. split; [reflexivity|]. discriminate.
Qed.

(** ** wait_for_startup *)

Lemma bind_run {A B} (m : M A) (k : A -> M B) (st : State) :
  bind m k st =
    match fst (m st) with
    | Ret a => k a (snd (m st))
    | Raise e => (Raise e, snd (m st))
    | OutOfFuel => (OutOfFuel, snd (m st))
    end.
Proof. unfold bind. destruct (m st) as [[a|e|] st']; reflexivity. Qed.

Definition is_get (e : event) : bool :=
  match e with EvGet _ _ => true | _ => false end.









(** The state a sleep leaves when nothing interrupts it. *)
Definition slept (secs : Z) (st : State) : State :=
  let e := env st in
  with_trace (EvSleep secs :: trace st)
    (with_env (mkEnv (exists_q e) (spawn_q e) (http_q e) (poll_q e)
                     (wait_q e) (tl (sleep_q e))) st).

Lemma sleep_quiet (secs : Z) (st : State) :
  hd false (sleep_q (env st)) = false -> sleep secs st = (Ret tt, slept secs st).
Proof. unfold sleep, slept. intros ->. reflexivity. Qed.

(** An interrupted sleep raises: [SystemExit(0)] out of the installed
    handler, [KeyboardInterrupt] without one. *)
Lemma sleep_interrupted (secs : Z) (st : State) :
  hd false (sleep_q (env st)) = true ->
  fst (sleep secs st) =
    Raise (if handlers st then SystemExit 0 else KeyboardInterrupt).
Proof.
  unfold sleep. intros ->. destruct (handlers st); [|reflexivity].
  unfold signal_handler. rewrite bind_run. cbn [fst snd log emit].
  rewrite bind_run, shutdown_returns. reflexivity.
Qed.

Lemma sleep_returned (secs : Z) (st : State) :
  fst (sleep secs st) = Ret tt -> sleep secs st = (Ret tt, slept secs st).
Proof.
  intros H. destruct (hd false (sleep_q (env st))) eqn:Hq.
  - rewrite sleep_interrupted in H by exact Hq. destruct (handlers st); discriminate.
  - apply sleep_quiet, Hq.
Qed.


(** ** Invariants through the monad

    [sound I allowed m]: from a state satisfying [I], the computation [m]
    ends in a state satisfying [I], and whatever it raises is [allowed]. *)

Definition sound {A} (I : State -> Prop) (allowed : exn -> Prop) (m : M A) : Prop :=
  forall st, I st ->
    I (snd (m st)) /\ forall e, fst (m st) = Raise e -> allowed e.

Section Sound.
Context (I : State -> Prop) (allowed : exn -> Prop).

Lemma sound_ret {A} (a : A) : sound I allowed (ret a).
Proof. intros st HI. split; [exact HI | discriminate]. Qed.

Lemma sound_raise {A} (e : exn) : allowed e -> sound I allowed (@raise A e).
Proof. intros He st HI. split; [exact HI|]. intros e' [= <-]. exact He. Qed.

Lemma sound_bind {A B} (m : M A) (k : A -> M B) :
  sound I allowed m -> (forall a, sound I allowed (k a)) ->
  sound I allowed (bind m k).
Proof.
  intros Hm Hk st HI. destruct (Hm st HI) as [HI' Hr].
  rewrite bind_run. destruct (fst (m st)) as [a|e|]; cbn.
  - apply Hk, HI'.
  - split; [exact HI'|]. intros e' [= <-]. apply Hr. reflexivity.
  - split; [exact HI' | discriminate].
Qed.

Lemma sound_try_except {A} (m : M A) (cs : clauses A) :
  sound I allowed m ->
  (forall e, allowed e ->
     match cs e with
     | Some h => sound I allowed h
     | None => True
     end) ->
  sound I allowed (try_except m cs).
Proof.
  intros Hm Hcs st HI. destruct (Hm st HI) as [HI' Hr].
  unfold try_except. destruct (m st) as [[a|e|] st'] eqn:Hmst; cbn in *.
  - split; [exact HI' | discriminate].
  - specialize (Hcs e (Hr e eq_refl)). destruct (cs e) as [h|].
    + apply Hcs, HI'.
    + split; [exact HI'|]. intros e' [= <-]. apply Hr. reflexivity.
  - split; [exact HI' | discriminate].
Qed.

Lemma sound_try_finally {A} (m : M A) (fin : M unit) :
  sound I allowed m -> sound I allowed fin ->
  sound I allowed (try_finally m fin).
Proof.
  intros Hm Hf st HI. destruct (Hm st HI) as [HI' Hr].
  unfold try_finally. destruct (m st) as [[a|e|] st'] eqn:Hmst; cbn in *.
  - destruct (Hf st' HI') as [HI'' Hr']. destruct (fin st') as [[[]|e|] st'']; cbn in *.
    + split; [exact HI'' | discriminate].
    + split; [exact HI''|]. intros e' [= <-]. apply Hr'. reflexivity.
    + split; [exact HI'' | discriminate].
  - destruct (Hf st' HI') as [HI'' Hr']. destruct (fin st') as [[[]|e'|] st'']; cbn in *.
    + split; [exact HI''|]. intros e' [= <-]. apply Hr. reflexivity.
    + split; [exact HI''|]. intros e'' [= <-]. apply Hr'. reflexivity.
    + split; [exact HI'' | discriminate].
  - split; [exact HI' | discriminate].
Qed.

Lemma sound_except {A} (cls : exn -> bool) (h : exn -> M A) (e : exn) :
  (cls e = true -> sound I allowed (h e)) ->
  match except cls h e with
  | Some h' => sound I allowed h'
  | None => True
  end.
Proof. unfold except. destruct (cls e); auto. Qed.

Lemma sound_or_except {A} (c1 c2 : clauses A) (e : exn) :
  match c1 e with Some h => sound I allowed h | None => True end ->
  match c2 e with Some h => sound I allowed h | None => True end ->
  match or_except c1 c2 e with Some h => sound I allowed h | None => True end.
Proof. unfold or_except. destruct (c1 e); auto. Qed.
End Sound.

Section SoundReads.
Context (I : State -> Prop) (allowed : exn -> Prop).

Lemma sound_get_process : sound I allowed get_process.
Proof. intros st HI. split; [exact HI | discriminate]. Qed.

Lemma sound_get_running : sound I allowed get_running.
Proof. intros st HI. split; [exact HI | discriminate]. Qed.

Lemma sound_out_of_fuel {A} : sound I allowed (fun st => (@OutOfFuel A, st)).
Proof. intros st HI. split; [exact HI | discriminate]. Qed.

Lemma sound_json (r : response) :
  (forall e, is_Exception e = true -> allowed e) -> sound I allowed (json r).
Proof.
  intros Hexc. unfold json. destruct (payload r).
  - apply sound_raise, Hexc. reflexivity.
  - apply sound_ret.
Qed.

Lemma sound_py_get (v : pyval) (key : string) :
  (forall e, is_Exception e = true -> allowed e) -> sound I allowed (py_get v key).
Proof.
  intros Hexc. unfold py_get.
  destruct v; try (apply sound_raise, Hexc; reflexivity). apply sound_ret.
Qed.
End SoundReads.

Ltac sound_step :=
  first
    [ assumption
    | apply sound_ret
    | apply sound_get_process
    | apply sound_get_running
    | apply sound_out_of_fuel
    | apply sound_json; assumption
    | apply sound_py_get; assumption
    | apply sound_bind; [|intros ?]
    | apply sound_try_except; [|intros ? ?]
    | apply sound_try_finally
    | apply sound_or_except
    | apply sound_except; intros ?
    | match goal with
      | |- sound _ _ (if ?b then _ else _) => destruct b
      | |- sound _ _ (match ?o with Some _ => _ | None => _ end) => destruct o
      | |- sound _ _ (match ?f with Next => _ | Break => _ end) => destruct f
      | H : forall _, sound _ _ _ |- sound _ _ _ => apply H
      | H : forall _ _, sound _ _ _ |- sound _ _ _ => apply H
      | H : forall _ _ _, sound _ _ _ |- sound _ _ _ => apply H
      end ].

Ltac sound_auto := repeat sound_step.

(** Invariants the supervisor's own code carries along, given that the
    operations it calls carry them. *)
Section SoundSupervisor.
Context (I : State -> Prop) (allowed : exn -> Prop).
Hypothesis Hexc : forall e, is_Exception e = true -> allowed e.
Hypothesis Hlog : forall msg, sound I allowed (log msg).
Hypothesis Hpoll : forall p, sound I allowed (poll p).
Hypothesis Hterminate : forall p, sound I allowed (terminate p).
Hypothesis Hget : forall url t, sound I allowed (requests_get url t).
Hypothesis Hsleep : forall secs, sound I allowed (sleep secs).
Hypothesis Hstart : sound I allowed start_service.

Lemma sound_process_is_running : sound I allowed process_is_running.
Proof. unfold process_is_running. sound_auto. Qed.

Lemma sound_process_has_exited : sound I allowed process_has_exited.
Proof. unfold process_has_exited. sound_auto. Qed.

Lemma sound_check_health : sound I allowed check_health.
Proof. unfold check_health. sound_auto. Qed.

Lemma sound_startup_loop (n : nat) : sound I allowed (startup_loop n).
Proof.
  pose proof sound_check_health. pose proof sound_process_has_exited.
  induction n as [|n IH]; cbn [startup_loop]; sound_auto.
Qed.

Lemma sound_wait_for_startup (n : nat) : sound I allowed (wait_for_startup n).
Proof. pose proof (sound_startup_loop n). unfold wait_for_startup. sound_auto. Qed.

Lemma sound_monitor_body : sound I allowed monitor_body.
Proof.
  pose proof sound_check_health. pose proof sound_process_has_exited.
  pose proof (sound_wait_for_startup 30).
  unfold monitor_body. sound_auto.
Qed.

Lemma sound_monitor_iteration : sound I allowed monitor_iteration.
Proof. pose proof sound_monitor_body. unfold monitor_iteration. sound_auto. Qed.

Lemma sound_monitor_loop (fuel : nat) : sound I allowed (monitor_loop fuel).
Proof.
  pose proof sound_monitor_iteration.
  induction fuel as [|fuel IH]; cbn [monitor_loop]; sound_auto.
Qed.

Lemma sound_monitor_service (fuel : nat) : sound I allowed (monitor_service fuel).
Proof. pose proof (sound_monitor_loop fuel). unfold monitor_service. sound_auto. Qed.

Lemma sound_run_try (fuel : nat) : sound I allowed (run_try fuel).
Proof.
  pose proof (sound_wait_for_startup 30). pose proof (sound_monitor_service fuel).
  unfold run_try. sound_auto.
Qed.
End SoundSupervisor.

(** ** Counting events *)

(** The events of everyday operation: log lines, calls on the handle,
    signals to the child, its exit, sleeps. *)
Definition routine (e : event) : bool :=
  match e with
  | EvLog _ | EvTerminate _ | EvKill _ | EvWait _ _ | EvSignal _ _
  | EvExit _ _ | EvSleep _ => true
  | _ => false
  end.

(** The trace holds exactly [n] events satisfying [f]. *)
Definition counts (f : event -> bool) (n : nat) (st : State) : Prop :=
  count f (trace st) = n.

Lemma count_app (f : event -> bool) (t1 t2 : list event) :
  count f (t1 ++ t2) = (count f t1 + count f t2)%nat.
Proof. induction t1 as [|e t1 IH]; cbn; [reflexivity | rewrite IH; lia]. Qed.

Section Counting.
Context (f : event -> bool) (allowed : exn -> Prop).
Hypothesis Hf : forall e, routine e = true -> f e = false.

Ltac count_prim :=
  let HI := fresh "HI" in
  intros [? ? ? ? ? ?] HI; unfold counts in *; unfold_ops; cbn in *;
  repeat (case_match; cbn in * );
  try match goal with
      | H : f ?e = true |- _ => rewrite (Hf e eq_refl) in H; discriminate
      end;
  (split; [|try discriminate]); auto.

Lemma counts_log (n : nat) (msg : string) : sound (counts f n) allowed (log msg).
Proof. count_prim. Qed.

Lemma counts_set_running (n : nat) (b : bool) : sound (counts f n) allowed (set_running b).
Proof. count_prim. Qed.

Lemma counts_set_process (n : nat) (o : option pid) :
  sound (counts f n) allowed (set_process o).
Proof. count_prim. Qed.

Lemma counts_path_exists (n : nat) (path : string) :
  sound (counts f n) allowed (path_exists path).
Proof. count_prim. Qed.


Lemma counts_terminate (n : nat) (p : pid) : sound (counts f n) allowed (terminate p).
Proof. count_prim. Qed.

Lemma counts_kill (n : nat) (p : pid) : sound (counts f n) allowed (kill p).
Proof. count_prim. Qed.

Lemma counts_wait (n : nat) (p : pid) (t : option Z) :
  (forall e, is_Exception e = true -> allowed e) ->
  sound (counts f n) allowed (wait p t).
Proof. intros Hexc. count_prim. intros e' [= <-]. apply Hexc. reflexivity. Qed.
End Counting.

Lemma sound_conj {A} (I1 I2 : State -> Prop) (allowed : exn -> Prop) (m : M A) :
  sound I1 allowed m -> sound I2 allowed m ->
  sound (fun st => I1 st /\ I2 st) allowed m.
Proof.
  intros H1 H2 st [HI1 HI2]. destruct (H1 st HI1) as [? ?], (H2 st HI2) as [? ?]. auto.
Qed.

Lemma sound_exists {A X} (I : X -> State -> Prop) (allowed : exn -> Prop) (m : M A) :
  (forall x, sound (I x) allowed m) ->
  sound (fun st => exists x, I x st) allowed m.
Proof. intros H st [x HI]. destruct (H x st HI) as [? ?]. eauto. Qed.

(** An event is recorded, then [k] runs. *)
Lemma emit_then {A} (I I' : State -> Prop) (allowed : exn -> Prop)
    (ev : event) (k : unit -> M A) (st : State) :
  I' (with_trace (ev :: trace st) st) -> sound I' allowed (k tt) ->
  I' (snd (bind (emit ev) k st)) /\
  forall e, fst (bind (emit ev) k st) = Raise e -> allowed e.
Proof. intros HI' Hk. rewrite bind_run. cbn [emit fst snd]. apply Hk, HI'. Qed.

Section CountingShutdown.
Context (f : event -> bool).
Hypothesis Hf : forall e, routine e = true -> f e = false.

(** [shutdown] adds its own entry mark and routine events only. *)
Lemma counts_shutdown (n : nat) (st : State) :
  counts f n st ->
  counts f ((if f EvShutdown then 1 else 0) + n) (snd (shutdown st)).
Proof.
  intros Hn. unfold shutdown.
  refine (proj1 (emit_then (counts f n) _ (fun _ => True) _ _ st _ _)).
  - unfold counts in *. cbn. rewrite Hn. reflexivity.
  - pose proof (counts_log f (fun _ => True) Hf).
    pose proof (counts_set_running f (fun _ => True)).
    pose proof (counts_terminate f (fun _ => True) Hf).
    pose proof (counts_kill f (fun _ => True) Hf).
    pose proof (fun n p t => counts_wait f (fun _ => True) Hf n p t (fun _ _ => Logic.I)).
    sound_auto.
Qed.

End CountingShutdown.





(** A worker whose third probe is the first healthy one. *)
Definition healthy_body : body := Json (PyDict {[ "status" := PyStr "healthy" ]}).


(** ** monitor_service *)

(** [if self.process: self.process.terminate(); time.sleep(2)], the
    grace period the unhealthy branch grants before it restarts. *)
Definition grace_stop : M unit :=
  o <- get_process;;
  match o with
  | Some p => terminate p;; sleep 2
  | None => ret tt
  end.

(** An iteration that starts in [st] decides to restart and is about to
    call [start_service()] in [sr]: the poll found the child gone, or the
    probe was unhealthy and the grace period has passed. *)
Definition restart_needed (st sr : State) : Prop :=
  let s1 := snd (process_has_exited st) in
  (fst (process_has_exited st) = Ret true /\
   sr = snd (log "Service process died, restarting..." s1)) \/
  (fst (process_has_exited st) = Ret false /\
   fst (check_health s1) = Ret false /\
   let s2 := snd (log "Service health check failed, restarting..."
                    (snd (check_health s1))) in
   fst (grace_stop s2) = Ret tt /\ sr = snd (grace_stop s2)).

Lemma grace_stop_then {A} (k : M A) (st : State) :
  (o <- get_process;;
   match o with
   | Some p => terminate p;; sleep 2
   | None => ret tt
   end;;
   k) st = (grace_stop;; k) st.
Proof.
  unfold grace_stop. rewrite !bind_run. cbn [get_process fst snd].
  destruct (process st); [|reflexivity]. rewrite !bind_run. reflexivity.
Qed.

Lemma start_service_returns (st : State) : exists b, fst (start_service st) = Ret b.
Proof.
  destruct st as [o r h ps t [eq sq hq pq wq slq]].
  unfold start_service. unfold_ops. cbn.
  destruct o as [p|]; cbn;
    [destruct (ps !! p) as [[|c]|]; cbn; [destruct (hd StillRunning pq); cbn | |] |].
  all: destruct (hd true eq); cbn; try (destruct (hd true sq); cbn).
  all: eexists; reflexivity.
Qed.

Lemma monitor_loop_S (fuel : nat) (st : State) :
  monitor_loop (S fuel) st =
    (r <- get_running;;
     if r then
       f <- monitor_iteration;;
       match f with
       | Break => ret tt
       | Next => monitor_loop fuel
       end
     else ret tt) st.
Proof. reflexivity. Qed.

(** C6: when an iteration restarts the worker and the restart's
    [wait_for_startup] returns false, the iteration logs the failure and
    breaks; the loop returns there, whatever fuel is left, so nothing
    more is attempted. *)
Theorem monitor_gives_up (fuel : nat) (st sr : State) :
  running st = true ->
  restart_needed st sr ->
  let sw := snd (wait_for_startup 30 (snd (start_service sr))) in
  fst (wait_for_startup 30 (snd (start_service sr))) = Ret false ->
  let sf := snd (log "Failed to restart service" sw) in
  monitor_iteration st = (Ret Break, sf) /\
  monitor_loop (S fuel) st = (Ret tt, sf) /\
  trace sf = EvLog (log_prefix +:+ "Failed to restart service") :: trace sw.
Proof.
  intros Hrun Hneed sw Hw sf.
  destruct (start_service_returns sr) as [b Hb].
  assert (Hbody : monitor_body st = (Ret Break, sf)).
  { unfold monitor_body. rewrite bind_run.
    destruct Hneed as [(Hd & ->) | (Hd & Hh & Hg & ->)]; rewrite Hd.
    - rewrite bind_run. rewrite bind_run. cbn [log emit fst snd].
      rewrite bind_run. cbn [log emit fst snd] in Hb. rewrite Hb.
      rewrite bind_run. cbn [log emit fst snd] in Hw. rewrite Hw. reflexivity.
    - rewrite bind_run. rewrite bind_run, Hh. cbn [negb].
      rewrite bind_run. cbn [log emit fst snd].
      rewrite grace_stop_then, bind_run. cbn zeta in Hg. cbn [log emit fst snd] in Hg.
      rewrite Hg.
      rewrite bind_run. cbn [log emit fst snd] in Hb. rewrite Hb.
      rewrite bind_run. cbn [log emit fst snd] in Hw. rewrite Hw.
      reflexivity. }
  assert (Hit : monitor_iteration st = (Ret Break, sf)).
  { unfold monitor_iteration, try_except. rewrite Hbody. reflexivity. }
  split; [exact Hit|]. split; [|reflexivity].
  rewrite monitor_loop_S, bind_run. cbn [get_running fst snd]. rewrite Hrun.
  rewrite bind_run, Hit. reflexivity.
Qed.

(** A supervisor whose child has just crashed, in a world where nothing
    answers the health requests. *)
Definition crashed : State :=
  mkState (Some 0%nat) true false [Running] [] (mkEnv [] [] [] [Gone 1] [] []).

Lemma monitor_gives_up_witness :
  fst (monitor_loop 1 crashed) = Ret tt /\
  count is_popen (trace (snd (monitor_loop 1 crashed))) = 1%nat.
Proof.
  set (sr := snd (log "Service process died, restarting..."
                    (snd (process_has_exited crashed)))).
  destruct (monitor_gives_up 0 crashed sr) as (_ & H & _).
  - reflexivity.
  - left. split; [vm_compute; reflexivity | reflexivity].
  - vm_compute. reflexivity.
  - rewrite H. split; [reflexivity | vm_compute; reflexivity].
Defined.

(** What a sleep raises is never of class [Exception]. *)
Lemma sleep_raises (secs : Z) (st : State) (e : exn) :
  fst (sleep secs st) = Raise e -> is_Exception e = false.
Proof.
  destruct (hd false (sleep_q (env st))) eqn:Hq.
  - rewrite sleep_interrupted by exact Hq. intros [= <-]. destruct (handlers st); reflexivity.
  - rewrite sleep_quiet by exact Hq. discriminate.
Qed.

Lemma monitor_iteration_raises (st : State) (e : exn) :
  fst (monitor_iteration st) = Raise e -> is_Exception e = false.
Proof.
  unfold monitor_iteration, try_except.
  destruct (monitor_body st) as [[f|e0|] st'] eqn:Hb; cbn; try discriminate.
  unfold or_except, except.
  destruct e0; cbn [is_KeyboardInterrupt is_Exception];
    try (rewrite bind_run; cbn [log emit fst snd]; rewrite bind_run;
         match goal with |- context [sleep 5 ?s] =>
           pose proof (sleep_raises 5 s) as Hs;
           destruct (fst (sleep 5 s)) as [[]|e1|]; cbn; try discriminate;
           intros [= <-]; apply Hs; reflexivity
         end).
  - discriminate.
  - cbn. intros [= <-]. reflexivity.
Qed.

Lemma monitor_loop_raises (fuel : nat) (st : State) (e : exn) :
  fst (monitor_loop fuel st) = Raise e -> is_Exception e = false.
Proof.
  revert st. induction fuel as [|fuel IH]; intros st.
  - cbn. unfold bind, get_running. destruct (running st); discriminate.
  - rewrite monitor_loop_S, bind_run. cbn [get_running fst snd].
    destruct (running st); [|discriminate]. rewrite bind_run.
    pose proof (monitor_iteration_raises st) as Hit.
    destruct (fst (monitor_iteration st)) as [[|]|e0|]; cbn [fst].
    + apply IH.
    + discriminate.
    + intros [= <-]. apply Hit. reflexivity.
    + discriminate.
Qed.

(** C9: an exception of class [Exception] raised inside one iteration is
    caught; the iteration logs it and sleeps 5 seconds; when that sleep
    ends the loop goes on with the next iteration; and no exception of
    class [Exception] ever leaves [monitor_service]. *)
Theorem monitor_survives (fuel : nat) (st : State) :
  (forall (e : exn) (sb : State),
     running st = true ->
     monitor_body st = (Raise e, sb) -> is_Exception e = true ->
     let sl := snd (log ("Monitor error: " +:+ exn_str e) sb) in
     monitor_iteration st = (sleep 5;; ret Next) sl /\
     (fst (sleep 5 sl) = Ret tt ->
        monitor_iteration st = (Ret Next, slept 5 sl) /\
        monitor_loop (S fuel) st = monitor_loop fuel (slept 5 sl))) /\
  (forall e : exn, fst (monitor_service fuel st) = Raise e -> is_Exception e = false).
Proof.
  split.
  - intros e sb Hrun Hb He sl.
    assert (Hit : monitor_iteration st = (sleep 5;; ret Next) sl).
    { unfold monitor_iteration, try_except. rewrite Hb. unfold or_except, except.
      rewrite He. destruct e; try discriminate; reflexivity. }
    split; [exact Hit|]. intros Hs.
    assert (Hit' : monitor_iteration st = (Ret Next, slept 5 sl)).
    { rewrite Hit, bind_run, (sleep_returned _ _ Hs). reflexivity. }
    split; [exact Hit'|].
    rewrite monitor_loop_S, bind_run. cbn [get_running fst snd]. rewrite Hrun.
    rewrite bind_run, Hit'. reflexivity.
  - intros e. unfold monitor_service. rewrite bind_run. cbn [log emit fst snd].
    apply monitor_loop_raises.
Qed.

(** A supervisor whose next look at its child fails. *)
Definition poll_fails : State :=
  mkState (Some 0%nat) true false [Running] [] (mkEnv [] [] [] [PollError] [] []).

Lemma monitor_survives_witness :
  fst (monitor_iteration poll_fails) = Ret Next /\
  EvLog (log_prefix +:+ "Monitor error: OSError") ∈ trace (snd (monitor_iteration poll_fails)).
Proof.
  destruct (monitor_survives 0 poll_fails) as [H _].
  destruct (H OSError (snd (monitor_body poll_fails))) as (_ & H2).
  - reflexivity.
  - vm_compute. reflexivity.
  - reflexivity.
  - destruct H2 as [H2 _]; [vm_compute; reflexivity|].
    rewrite H2. split; [reflexivity|]. vm_compute.
    apply list_elem_of_further, list_elem_of_here.
Defined.

(** ** One worker at a time *)

(** The children alive after a trace (newest event first): spawned and
    not yet seen to exit. *)
Fixpoint live (t : list event) : list pid :=
  match t with
  | [] => []
  | EvPopen p _ :: t' => p :: live t'
  | EvExit p _ :: t' => List.remove Nat.eq_dec p (live t')
  | _ :: t' => live t'
  end.

(** Every spawn of the trace happened when no child was alive. *)
Fixpoint spawns_alone (t : list event) : Prop :=
  match t with
  | [] => True
  | EvPopen _ _ :: t' => live t' = [] /\ spawns_alone t'
  | _ :: t' => spawns_alone t'
  end.

Lemma remove_length_le (p : pid) (l : list pid) :
  (length (List.remove Nat.eq_dec p l) <= length l)%nat.
Proof.
  induction l as [|q l IH]; cbn; [lia|]. destruct (Nat.eq_dec p q); cbn; lia.
Qed.

Lemma spawns_alone_live (t : list event) :
  spawns_alone t -> (length (live t) <= 1)%nat.
Proof.
  induction t as [|e t IH]; cbn; [lia|].
  destruct e; cbn; auto.
  - intros [-> _]. cbn. lia.
  - intros H. etransitivity; [apply remove_length_le | apply IH, H].
Qed.

Lemma spawns_alone_suffix (t1 t2 : list event) :
  spawns_alone (t1 ++ t2) -> spawns_alone t2.
Proof.
  induction t1 as [|e t1 IH]; cbn; [auto|]. destruct e; cbn; auto. intros [_ H]. auto.
Qed.

Lemma nobody (l : list pid) : (forall q, In q l -> False) -> l = [].
Proof. destruct l as [|q l]; [reflexivity|]. intros H. destruct (H q). left. reflexivity. Qed.

(** The invariant: spawns happened alone, and a child that is alive is
    the one the supervisor holds, running. *)
Definition one_worker (st : State) : Prop :=
  spawns_alone (trace st) /\
  forall q, In q (live (trace st)) -> process st = Some q /\ procs st !! q = Some Running.

Section OneWorker.
Context (allowed : exn -> Prop).

Ltac worker_prim :=
  let Hs := fresh "Hs" in
  let Hl := fresh "Hl" in
  intros [? ? ? ? ? ?] [Hs Hl]; unfold one_worker in *; unfold_ops; cbn in *;
  repeat (case_match; cbn in * );
  (split; [split; [auto|] | try discriminate]); auto.

Lemma worker_log (msg : string) : sound one_worker allowed (log msg).
Proof. worker_prim. Qed.

Lemma worker_emit_shutdown : sound one_worker allowed (emit EvShutdown).
Proof. worker_prim. Qed.

Lemma worker_set_running (b : bool) : sound one_worker allowed (set_running b).
Proof. worker_prim. Qed.

Lemma worker_install_handlers (main_thread : bool) :
  (forall e, is_Exception e = true -> allowed e) ->
  sound one_worker allowed (install_handlers main_thread).
Proof.
  intros Hexc. unfold install_handlers. destruct main_thread; [worker_prim|].
  apply sound_raise, Hexc. reflexivity.
Qed.

Lemma worker_requests_get (url : string) (t : Z) :
  (forall e, is_Exception e = true -> allowed e) ->
  sound one_worker allowed (requests_get url t).
Proof. intros Hexc. worker_prim; intros e' [= <-]; apply Hexc; reflexivity. Qed.

Lemma worker_terminate (p : pid) : sound one_worker allowed (terminate p).
Proof. worker_prim. Qed.

(** Once [p] is seen to exit, the children still alive are untouched. *)
Ltac after_exit Hl :=
  let q := fresh "q" in
  let Hq := fresh "Hq" in
  let Hne := fresh "Hne" in
  intros q Hq; apply in_remove in Hq as [Hq Hne];
  destruct (Hl q Hq); split; [assumption|];
  rewrite list_lookup_insert_ne by congruence; assumption.

Lemma worker_poll (p : pid) :
  (forall e, is_Exception e = true -> allowed e) ->
  sound one_worker allowed (poll p).
Proof.
  intros Hexc. worker_prim.
  - after_exit Hl.
  - intros e' [= <-]. apply Hexc. reflexivity.
Qed.

Lemma worker_kill (p : pid) : sound one_worker allowed (kill p).
Proof. worker_prim. after_exit Hl. Qed.

Lemma worker_wait (p : pid) (t : option Z) :
  (forall e, is_Exception e = true -> allowed e) ->
  sound one_worker allowed (wait p t).
Proof.
  intros Hexc.
  worker_prim; first [after_exit Hl | intros e' [= <-]; apply Hexc; reflexivity].
Qed.
End OneWorker.

(** No restriction on what may be raised. *)
Definition anything (e : exn) : Prop := True.

Lemma anything_goes (e : exn) : is_Exception e = true -> anything e.
Proof. intros _. exact Logic.I. Qed.

Lemma worker_shutdown : sound one_worker anything shutdown.
Proof.
  pose proof (worker_log anything). pose proof (worker_set_running anything).
  pose proof (worker_terminate anything). pose proof (worker_kill anything).
  pose proof (fun p t => worker_wait anything p t anything_goes).
  pose proof (worker_emit_shutdown anything).
  unfold shutdown. sound_auto.
Qed.

Lemma worker_sleep (secs : Z) : sound one_worker anything (sleep secs).
Proof.
  intros st Hst. split; [|intros; exact Logic.I].
  destruct st as [o r h ps t e]. unfold sleep. cbn [env handlers].
  destruct (hd false (sleep_q e)); [destruct h|]; try exact Hst.
  unfold signal_handler. rewrite bind_run. cbn [log emit fst snd].
  rewrite bind_run, shutdown_returns. cbn [snd raise].
  apply worker_shutdown. exact Hst.
Qed.

(** [start_service] spawns only when nobody is alive: its own poll has
    just seen the old child gone, or there never was one. *)
Ltac nobody_alive Hl :=
  let Hempty := fresh "Hempty" in
  let q := fresh "q" in
  let Hq := fresh "Hq" in
  let Hne := fresh "Hne" in
  let Heq := fresh "Heq" in
  let Hrun := fresh "Hrun" in
  match goal with
  | |- context [List.remove Nat.eq_dec ?p (live ?tt)] =>
      assert (Hempty : List.remove Nat.eq_dec p (live tt) = [])
        by (apply nobody; intros q Hq; apply in_remove in Hq as [Hq Hne];
            destruct (Hl q Hq) as [Heq Hrun]; congruence);
      rewrite Hempty
  | |- context [live ?tt] =>
      assert (Hempty : live tt = [])
        by (apply nobody; intros q Hq; destruct (Hl q Hq) as [Heq Hrun]; congruence);
      rewrite Hempty
  end.

Lemma worker_start_service : sound one_worker anything start_service.
Proof.
  intros st Hst. split; [|intros; exact Logic.I]. revert Hst.
  destruct st as [o r h ps t [eq sq hq pq wq slq]]. intros [Hs Hl].
  unfold start_service, one_worker. unfold_ops. cbn in *.
  assert (Hlen : forall (q : nat) c,
             (<[q := Exited c]> ps ++ [Running]) !! length (<[q := Exited c]> ps)
             = Some Running).
  { intros q c. rewrite lookup_app_r by lia. rewrite Nat.sub_diag. reflexivity. }
  assert (Hlen0 : (ps ++ [Running]) !! length ps = Some Running).
  { rewrite lookup_app_r by lia. rewrite Nat.sub_diag. reflexivity. }
  destruct o as [p|]; cbn;
    [destruct (ps !! p) as [[|c]|] eqn:Hp; cbn; [destruct (hd StillRunning pq) as [|c|]; cbn | |] |].
  all: try (destruct (hd true eq) eqn:He0; cbn; try (destruct (hd true sq) eqn:Hs0; cbn)).
  all: try (split; [assumption | assumption]).
  all: nobody_alive Hl.
  all: try (split; [assumption | intros q []]).
  all: split; [split; [reflexivity | assumption]|].
  all: intros q [<-|[]]; split; [reflexivity | auto].
Qed.

Lemma worker_run_try (fuel : nat) : sound one_worker anything (run_try fuel).
Proof.
  apply sound_run_try.
  - exact anything_goes.
  - apply worker_log.
  - intros p. apply worker_poll, anything_goes.
  - apply worker_terminate.
  - intros url t. apply worker_requests_get, anything_goes.
  - apply worker_sleep.
  - apply worker_start_service.
Qed.

Lemma worker_monitor_service (fuel : nat) : sound one_worker anything (monitor_service fuel).
Proof.
  apply sound_monitor_service.
  - exact anything_goes.
  - apply worker_log.
  - intros p. apply worker_poll, anything_goes.
  - apply worker_terminate.
  - intros url t. apply worker_requests_get, anything_goes.
  - apply worker_sleep.
  - apply worker_start_service.
Qed.

Lemma worker_run (main_thread : bool) (fuel : nat) :
  sound one_worker anything (run main_thread fuel).
Proof.
  pose proof (worker_run_try fuel). pose proof worker_shutdown.
  pose proof (worker_set_running anything).
  pose proof (fun b => worker_install_handlers anything b anything_goes).
  unfold run. sound_auto.
Qed.

Lemma one_worker_init (e : Env) : one_worker (init e).
Proof. split; [exact Logic.I | intros q []]. Qed.

(** C1: in every world, from whichever thread [run()] is called and
    however long the supervisor runs, each spawn in the trace of [run()]
    happened when no earlier child was alive, and at no moment of the
    trace is more than one child alive.  The same holds for
    [monitor_service()] entered from any state in which the one child
    alive, if any, is the one the supervisor holds. *)
Theorem one_worker_at_a_time (fuel : nat) :
  (forall (main_thread : bool) (e : Env),
     let t := trace (snd (run main_thread fuel (init e))) in
     spawns_alone t /\
     forall t1 t2 : list event, t = t1 ++ t2 -> (length (live t2) <= 1)%nat) /\
  (forall st : State, one_worker st ->
     let t := trace (snd (monitor_service fuel st)) in
     spawns_alone t /\
     forall t1 t2 : list event, t = t1 ++ t2 -> (length (live t2) <= 1)%nat).
Proof.
  assert (Hgen : forall s, one_worker s ->
            spawns_alone (trace s) /\
            forall t1 t2, trace s = t1 ++ t2 -> (length (live t2) <= 1)%nat).
  { intros s [Hs _]. split; [exact Hs|]. intros t1 t2 Ht.
    apply spawns_alone_live. rewrite Ht in Hs. eapply spawns_alone_suffix, Hs. }
  split.
  - intros main_thread e. apply Hgen. apply worker_run, one_worker_init.
  - intros st Hst. apply Hgen. apply worker_monitor_service, Hst.
Qed.

(** A supervisor whose child, spawned earlier, has just crashed: the
    restart spawns a second child after the first is seen gone. *)
Definition crashed_child : State :=
  mkState (Some 0%nat) true false [Running] [EvPopen 0%nat popen_call]
    (mkEnv [] [] [] [Gone 1] [] []).

Lemma one_worker_at_a_time_witness :
  let t := trace (snd (monitor_service 1 crashed_child)) in
  count is_popen t = 2%nat /\ spawns_alone t /\ (length (live t) <= 1)%nat.
Proof.
  destruct (one_worker_at_a_time 1) as [_ H].
  assert (Hc : one_worker crashed_child).
  { split; [split; [reflexivity | exact Logic.I]|].
    intros q [<-|[]]. split; reflexivity. }
  pose proof (H crashed_child Hc) as [H1 H2]. cbn zeta in *.
  split; [vm_compute; reflexivity|]. split; [exact H1|].
  exact (H2 [] (trace (snd (monitor_service 1 crashed_child))) eq_refl).
Defined.

(** ** run

    Under the handlers [run()] installs, every SIGINT handled so far has
    led to one [shutdown()]. *)

(** How the handlers are set and how many shutdowns and interrupts the
    trace holds. *)
Definition tally (h : bool) (n k : nat) (st : State) : Prop :=
  handlers st = h /\
  count is_shutdown (trace st) = n /\
  count is_interrupt (trace st) = k.

Section Tally.
Context (allowed : exn -> Prop) (h : bool) (n k : nat).
Hypothesis Hexc : forall e, is_Exception e = true -> allowed e.

Ltac tally_prim :=
  let HI := fresh "HI" in
  intros [? ? ? ? ? ?] HI; unfold tally in *; unfold_ops; cbn in *;
  repeat (case_match; cbn in * );
  (split; [assumption | try discriminate]);
  try (intros ? [= <-]; apply Hexc; reflexivity).

Lemma tally_log (msg : string) : sound (tally h n k) allowed (log msg).
Proof. tally_prim. Qed.

Lemma tally_set_running (b : bool) : sound (tally h n k) allowed (set_running b).
Proof. tally_prim. Qed.

Lemma tally_set_process (o : option pid) : sound (tally h n k) allowed (set_process o).
Proof. tally_prim. Qed.

Lemma tally_path_exists (path : string) : sound (tally h n k) allowed (path_exists path).
Proof. tally_prim. Qed.

Lemma tally_popen (args : popen_args) : sound (tally h n k) allowed (popen args).
Proof. tally_prim. Qed.

Lemma tally_requests_get (url : string) (t : Z) :
  sound (tally h n k) allowed (requests_get url t).
Proof. tally_prim. Qed.

Lemma tally_poll (p : pid) : sound (tally h n k) allowed (poll p).
Proof. tally_prim. Qed.

Lemma tally_terminate (p : pid) : sound (tally h n k) allowed (terminate p).
Proof. tally_prim. Qed.

Lemma tally_kill (p : pid) : sound (tally h n k) allowed (kill p).
Proof. tally_prim. Qed.

Lemma tally_wait (p : pid) (t : option Z) : sound (tally h n k) allowed (wait p t).
Proof. tally_prim. Qed.

Lemma tally_start_service : sound (tally h n k) allowed start_service.
Proof.
  pose proof tally_log. pose proof tally_set_process. pose proof tally_path_exists.
  pose proof tally_popen.
  pose proof (sound_process_is_running _ _ tally_poll).
  unfold start_service. sound_auto.
Qed.
End Tally.

(** [shutdown] adds one shutdown to the tally and nothing else. *)
Lemma tally_shutdown (h : bool) (n k : nat) (st : State) :
  tally h n k st -> tally h (S n) k (snd (shutdown st)).
Proof.
  intros Ht. unfold shutdown.
  refine (proj1 (emit_then (tally h n k) _ anything _ _ st _ _)).
  - destruct st as [? ? ? ? ? ?]. destruct Ht as (Hh & Hn & Hk).
    unfold tally. cbn in *. auto.
  - pose proof (tally_log anything h (S n) k).
    pose proof (tally_set_running anything h (S n) k).
    pose proof (tally_terminate anything h (S n) k).
    pose proof (tally_kill anything h (S n) k).
    pose proof (tally_wait anything h (S n) k anything_goes).
    sound_auto.
Qed.

(** Handlers installed, and as many shutdowns as interrupts. *)
Definition armed (st : State) : Prop :=
  exists n : nat, tally true n n st.

(** What may be raised once the handlers are installed: [SystemExit(0)]
    out of the handler, and errors of class [Exception]. *)
Definition exit0_or_error (e : exn) : Prop :=
  e = SystemExit 0 \/ is_Exception e = true.

Lemma exit0_or_error_exc (e : exn) : is_Exception e = true -> exit0_or_error e.
Proof. intros H. right. exact H. Qed.

Lemma armed_sleep (secs : Z) : sound armed exit0_or_error (sleep secs).
Proof.
  intros st [n Ht].
  destruct (hd false (sleep_q (env st))) eqn:Hq.
  - split.
    + exists (S n). destruct Ht as (Hh & Hn & Hk). unfold sleep. rewrite Hq, Hh.
      unfold signal_handler. rewrite bind_run. cbn [log emit fst snd].
      rewrite bind_run, shutdown_returns. cbn [snd raise].
      apply tally_shutdown. destruct st as [? ? ? ? ? ?].
      unfold tally. cbn in *. auto.
    + intros e. rewrite sleep_interrupted by exact Hq.
      destruct Ht as (-> & _). intros [= <-]. left. reflexivity.
  - rewrite sleep_quiet by exact Hq. split; [|discriminate].
    exists n. destruct st as [? ? ? ? ? ?]. exact Ht.
Qed.

Lemma armed_run_try (fuel : nat) : sound armed exit0_or_error (run_try fuel).
Proof.
  apply sound_run_try.
  - exact exit0_or_error_exc.
  - intros msg. apply sound_exists. intros n. apply tally_log.
  - intros p. apply sound_exists. intros n. apply tally_poll, exit0_or_error_exc.
  - intros p. apply sound_exists. intros n. apply tally_terminate.
  - intros url t. apply sound_exists. intros n. apply tally_requests_get, exit0_or_error_exc.
  - apply armed_sleep.
  - apply sound_exists. intros n. apply tally_start_service, exit0_or_error_exc.
Qed.

(** The state in which the [try] of [run()] starts. *)
Definition at_try (st : State) : State := with_handlers true (with_running true st).

(** How [run()] ends, by how its [try] block ends: [shutdown] runs unless
    the model ran out of fuel, and the early [return False] is the only
    way to a false result. *)
Lemma run_shape (fuel : nat) (st : State) :
  run true fuel st =
    match run_try fuel (at_try st) with
    | (Ret (Some b), s1) => (Ret b, snd (shutdown s1))
    | (Ret None, s1) => (Ret true, snd (shutdown s1))
    | (Raise e, s1) => (Raise e, snd (shutdown s1))
    | (OutOfFuel, s1) => (OutOfFuel, s1)
    end.
Proof.
  unfold run. rewrite bind_run. cbn [set_running fst snd].
  rewrite bind_run. cbn [install_handlers fst snd]. rewrite bind_run.
  unfold try_finally. change (with_handlers true (with_running true st)) with (at_try st).
  destruct (run_try fuel (at_try st)) as [[[b|]|e|] s1]; cbn [fst snd];
    try (pose proof (shutdown_returns s1) as Hs; destruct (shutdown s1) as [r' s2];
         cbn in Hs; subst r'; reflexivity).
Qed.

Lemma run_try_start_fails (fuel : nat) (st : State) :
  fst (start_service st) = Ret false ->
  run_try fuel st =
    (Ret (Some false), snd (log "Failed to start service" (snd (start_service st)))).
Proof.
  intros H. unfold run_try, try_except. rewrite bind_run, H. reflexivity.
Qed.

Lemma run_try_startup_fails (fuel : nat) (st : State) :
  fst (start_service st) = Ret true ->
  fst (wait_for_startup 30 (snd (start_service st))) = Ret false ->
  run_try fuel st =
    (Ret (Some false),
     snd (log "Service failed to become ready"
            (snd (wait_for_startup 30 (snd (start_service st)))))).
Proof.
  intros H1 H2. unfold run_try, try_except. rewrite bind_run, H1. cbn [negb].
  rewrite bind_run, H2. reflexivity.
Qed.

Lemma armed_at_try (e : Env) : armed (at_try (init e)).
Proof. exists 0%nat. repeat split. Qed.

(** [run()] called off the main thread: [signal.signal] raises before
    the [try], so neither the [except] nor the [finally] sees it. *)
Lemma run_off_main_thread (fuel : nat) (st : State) :
  run false fuel st = (Raise ValueError, with_running true st).
Proof. reflexivity. Qed.

(** C7, as stated, fails: called from a thread that is not the main one,
    [run()] leaves by an exception without a single [shutdown()], and
    [running] is still true. *)
Lemma run_off_main_thread_skips_shutdown :
  let out := run false 0 (init quiet) in
  fst out = Raise ValueError /\
  is_Exception ValueError = true /\
  count is_shutdown (trace (snd out)) = 0%nat /\
  running (snd out) = true.
Proof. vm_compute. repeat split; reflexivity. Qed.

(** C7, amended: once its signal handlers are installed, that is when
    called from the main thread, [run()] behaves as claimed.  When
    [start_service] or the first [wait_for_startup] fails, it returns
    false and its final state is that failure's state plus one log line
    plus one [shutdown], whatever the fuel: the monitor loop is never
    entered.  Whenever it ends, by return or by exception, [running] is
    false and the trace holds exactly one [shutdown] more than it holds
    signal-handler invocations: the one the [finally] runs.  Called from
    another thread, [run()] raises [ValueError] before its [try]:
    nothing is started, nothing is shut down, and only [running] has
    changed. *)
Theorem run_cleans_up (main_thread : bool) (fuel : nat) (e : Env) :
  let s0 := at_try (init e) in
  let r := fst (run main_thread fuel (init e)) in
  let st' := snd (run main_thread fuel (init e)) in
  (main_thread = true ->
     (fst (start_service s0) = Ret false ->
        r = Ret false /\
        st' = snd (shutdown (snd (log "Failed to start service"
                                    (snd (start_service s0)))))) /\
     (fst (start_service s0) = Ret true ->
      fst (wait_for_startup 30 (snd (start_service s0))) = Ret false ->
        r = Ret false /\
        st' = snd (shutdown (snd (log "Service failed to become ready"
                                    (snd (wait_for_startup 30 (snd (start_service s0)))))))) /\
     (r <> OutOfFuel ->
        running st' = false /\
        count is_shutdown (trace st') = S (count is_interrupt (trace st')))) /\
  (main_thread = false ->
     r = Raise ValueError /\ st' = with_running true (init e)).
Proof.
  cbn zeta. split; intros ->; [|rewrite run_off_main_thread; split; reflexivity].
  rewrite run_shape. split; [|split].
  - intros H. rewrite (run_try_start_fails _ _ H). split; reflexivity.
  - intros H1 H2. rewrite (run_try_startup_fails _ _ H1 H2). split; reflexivity.
  - destruct (armed_run_try fuel (at_try (init e)) (armed_at_try e)) as [[n Ht] _].
    destruct (run_try fuel (at_try (init e))) as [[[b|]|e0|] s1]; cbn [fst snd] in *;
      intros Hne; try congruence.
    all: split; [apply (shutdown_stops s1)|].
    all: destruct (tally_shutdown _ _ _ _ Ht) as (_ & -> & ->); reflexivity.
Qed.

(** In the quiet world the worker is spawned and never answers a probe:
    the startup wait gives up after its thirty rounds, and the cleanup
    of [run()] terminates the worker it had spawned, once. *)
Lemma run_cleans_up_witness :
  let out := run true 0 (init quiet) in
  fst out = Ret false /\
  count is_popen (trace (snd out)) = 1%nat /\
  count is_shutdown (trace (snd out)) = 1%nat /\
  count is_terminate (trace (snd out)) = 1%nat /\
  status_of (snd out) 0%nat = Exited 0.
Proof.
  destruct (run_cleans_up true 0 quiet) as [H _].
  destruct (H eq_refl) as (_ & H2 & _).
  destruct H2 as [Hr Hst]; [vm_compute; reflexivity | vm_compute; reflexivity |].
  cbn zeta. split; [exact Hr|]. rewrite Hst. vm_compute. repeat split; reflexivity.
Defined.

(** ** The exit code of the supervisor process *)

(** A log line with the given message. *)
Definition is_log (msg : string) (e : event) : bool :=
  match e with
  | EvLog line => String.eqb line (log_prefix +:+ msg)
  | _ => false
  end.

(** A worker that answers its first probe and none after. *)
Definition env_healthy_once : Env :=
  mkEnv [] [] [Answered (mkResponse 200 healthy_body)] [] [] [].

(** C2, as stated, fails: the restart inside monitoring fails, and the
    process still exits with code 0. *)
Lemma restart_failure_exits_zero :
  let out := main 1 (init env_healthy_once) in
  count (is_log "Failed to restart service") (trace (snd out)) = 1%nat /\
  fst (run true 1 (init env_healthy_once)) = Ret true /\
  exit_status (fst out) = Some 0.
Proof. vm_compute. repeat split; reflexivity. Qed.

(** What leaves the [try ... except Exception] of [run()] as an exception
    is [SystemExit(0)], raised by the signal handler. *)
Lemma run_try_raises (fuel : nat) (st : State) (e : exn) :
  armed st -> fst (run_try fuel st) = Raise e -> e = SystemExit 0.
Proof.
  intros Ha Hr. destruct (armed_run_try fuel st Ha) as [_ Hal].
  destruct (Hal e Hr) as [He|He]; [exact He|]. exfalso. revert Hr.
  unfold run_try, try_except.
  match goal with |- context [match ?m st with _ => _ end] =>
    destruct (m st) as [[o|e0|] s1] end; cbn; try discriminate.
  unfold except. destruct (is_Exception e0) eqn:He0; cbn.
  - discriminate.
  - intros [= <-]. congruence.
Qed.

Lemma main_exit (fuel : nat) (st : State) :
  fst (main fuel st) =
    match fst (run true fuel st) with
    | Ret b => Raise (SystemExit (if b then 0 else 1))
    | Raise e => Raise e
    | OutOfFuel => OutOfFuel
    end.
Proof. unfold main. rewrite bind_run. destruct (fst (run true fuel st)); reflexivity. Qed.

(** C2, amended: the process exits with code 1 when [start_service]
    fails or the first [wait_for_startup] returns false; in every other
    case it exits with code 0 whenever it exits, whether the monitor loop
    ended on a failed restart, an exception was caught, or a signal
    stopped it. *)
Theorem exit_codes (fuel : nat) (e : Env) :
  let s0 := at_try (init e) in
  let code := exit_status (fst (main fuel (init e))) in
  (fst (start_service s0) = Ret false -> code = Some 1) /\
  (fst (start_service s0) = Ret true ->
   fst (wait_for_startup 30 (snd (start_service s0))) = Ret false ->
     code = Some 1) /\
  (fst (start_service s0) = Ret true ->
   fst (wait_for_startup 30 (snd (start_service s0))) <> Ret false ->
     fst (main fuel (init e)) = OutOfFuel \/ code = Some 0).
Proof.
  cbn zeta. rewrite main_exit, run_shape. split; [|split].
  - intros H. rewrite (run_try_start_fails _ _ H). reflexivity.
  - intros H1 H2. rewrite (run_try_startup_fails _ _ H1 H2). reflexivity.
  - intros H1 H2.
    pose proof (run_try_raises fuel (at_try (init e))) as Hraise.
    specialize (fun e0 => Hraise e0 (armed_at_try e)).
    assert (Hnf : forall s1, run_try fuel (at_try (init e)) <> (Ret (Some false), s1)).
    { intros s1. unfold run_try, try_except. rewrite bind_run, H1. cbn [negb].
      rewrite bind_run.
      destruct (fst (wait_for_startup 30 (snd (start_service (at_try (init e))))))
        as [[|]|e0|]; try congruence.
      - cbn [negb]. rewrite bind_run. cbn [log emit fst snd].
        rewrite bind_run. cbn [log emit fst snd].
        rewrite bind_run. cbn [log emit fst snd]. rewrite bind_run.
        match goal with |- context [fst (monitor_service fuel ?s)] =>
          destruct (fst (monitor_service fuel s)) as [[]|e0|] end; cbn.
        + discriminate.
        + unfold except. destruct (is_Exception e0); discriminate.
        + discriminate.
      - cbn. unfold except. destruct (is_Exception e0); discriminate. }
    destruct (run_try fuel (at_try (init e))) as [[[[|]|]|e0|] s1] eqn:Hrt; cbn [fst snd].
    + right. reflexivity.
    + exfalso. apply (Hnf s1). reflexivity.
    + right. reflexivity.
    + right. rewrite (Hraise e0 eq_refl). reflexivity.
    + left. reflexivity.
Qed.

Lemma exit_codes_witness :
  exit_status (fst (main 0 (init env_no_script))) = Some 1 /\
  exit_status (fst (main 1 (init env_healthy_once))) = Some 0.
Proof.
  destruct (exit_codes 0 env_no_script) as (H1 & _ & _).
  destruct (exit_codes 1 env_healthy_once) as (_ & _ & H3).
  split; [apply H1; reflexivity|].
  destruct H3 as [H3|H3]; [reflexivity | vm_compute; discriminate | | exact H3].
  exfalso. revert H3. vm_compute. discriminate.
Defined.

(** * Further properties of the supervisor *)

(** ** The signal handler *)

(** After [shutdown()] the held child is not running any more, and the
    handle is still held. *)
Lemma shutdown_reaps (st : State) (p : pid) :
  process st = Some p ->
  process (snd (shutdown st)) = Some p /\ status_of (snd (shutdown st)) p <> Running.
Proof.
  intros Ho.
  assert (Hcase : procs st !! p = Some Running \/ exists c, status_of st p = Exited c).
  { unfold status_of. destruct (procs st !! p) as [[|c]|]; cbn; eauto. }
  destruct Hcase as [Hp|[c Hc]].
  - assert (Hlt : (p < length (procs st))%nat) by (eapply lookup_lt_Some; eauto).
    rewrite (shutdown_running st p Ho Hp).
    destruct (hd (Some 0) (wait_q (env st))); cbn; unfold status_of; cbn;
      rewrite list_lookup_insert_eq by lia; split; [reflexivity|discriminate | reflexivity|discriminate].
  - rewrite (shutdown_reaped st p c Ho Hc). cbn. split.
    + destruct st; exact Ho.
    + unfold status_of in *. destruct st; cbn in *. rewrite Hc. discriminate.
Qed.

(** X1: under the handlers [run()] installs, a SIGINT that arrives during
    a sleep ends that sleep with [SystemExit(0)], after the handler has
    logged the signal and run one [shutdown()]: [running] is false and
    the held child is no longer running. *)
Theorem signal_during_sleep (secs : Z) (st : State) :
  handlers st = true ->
  hd false (sleep_q (env st)) = true ->
  let st' := snd (sleep secs st) in
  fst (sleep secs st) = Raise (SystemExit 0) /\
  running st' = false /\
  count is_shutdown (trace st') = S (count is_shutdown (trace st)) /\
  count (is_log "Received signal 2") (trace st') =
    S (count (is_log "Received signal 2") (trace st)) /\
  (forall p, process st = Some p -> status_of st' p <> Running).
Proof.
  intros Hh Hq. cbn zeta. split.
  { rewrite sleep_interrupted by exact Hq. rewrite Hh. reflexivity. }
  unfold sleep. rewrite Hq, Hh. unfold signal_handler.
  rewrite bind_run. cbn [log emit fst snd]. rewrite bind_run, shutdown_returns.
  cbn [snd raise].
  match goal with |- context [shutdown ?s] => set (s3 := s) end.
  split; [apply (shutdown_stops s3)|]. split; [|split].
  - assert (Hr : forall ev, routine ev = true -> is_shutdown ev = false)
      by (intros []; cbn; congruence).
    assert (H3 : counts is_shutdown (count is_shutdown (trace st)) s3).
    { subst s3. destruct st. reflexivity. }
    apply (counts_shutdown is_shutdown Hr _ _ H3).
  - subst s3.
    assert (Hcase : forall s, count (is_log "Received signal 2") (trace (snd (shutdown s)))
                              = count (is_log "Received signal 2") (trace s)).
    { intros s. destruct (process s) as [p|] eqn:Ho.
      - assert (Hc : procs s !! p = Some Running \/ exists c, status_of s p = Exited c).
        { unfold status_of. destruct (procs s !! p) as [[|c]|]; cbn; eauto. }
        destruct Hc as [Hp|[c Hc]].
        + rewrite (shutdown_running s p Ho Hp).
          destruct (hd (Some 0) (wait_q (env s))); reflexivity.
        + rewrite (shutdown_reaped s p c Ho Hc). reflexivity.
      - destruct s as [o ? ? ? ? ?]. cbn in Ho. subst o. reflexivity. }
    rewrite Hcase. destruct st. reflexivity.
  - intros p Ho. apply shutdown_reaps. subst s3. destruct st. exact Ho.
Qed.

(** A supervisor inside [run()] holding a running child, with a SIGINT on
    its way. *)
Definition about_to_be_interrupted : State :=
  mkState (Some 0%nat) true true [Running] [] (mkEnv [] [] [] [] [] [true]).

Lemma signal_during_sleep_witness :
  fst (sleep 10 about_to_be_interrupted) = Raise (SystemExit 0) /\
  running (snd (sleep 10 about_to_be_interrupted)) = false.
Proof.
  destruct (signal_during_sleep 10 about_to_be_interrupted) as (H1 & H2 & _);
    [reflexivity | reflexivity |].
  split; [exact H1 | exact H2].
Defined.

(** ** Ctrl+C without the handlers *)

(** X2: a [KeyboardInterrupt] out of the body of a monitoring iteration
    is caught by the first [except] clause: the loop logs one line and
    ends, [monitor_service] returns normally, and the iteration adds
    nothing else, so the worker is left to the caller's [shutdown()]. *)
Theorem interrupt_stops_monitor (fuel : nat) (st : State) :
  running st = true ->
  fst (monitor_body st) = Raise KeyboardInterrupt ->
  let sb := snd (monitor_body st) in
  let sl := with_trace (EvLog (log_prefix +:+ "Received interrupt signal") :: trace sb) sb in
  monitor_iteration st = (Ret Break, sl) /\
  monitor_loop (S fuel) st = (Ret tt, sl).
Proof.
  intros Hrun Hb sb sl.
  assert (Hit : monitor_iteration st = (Ret Break, sl)).
  { unfold monitor_iteration, try_except. subst sl sb.
    destruct (monitor_body st) as [r s]. cbn [fst snd] in *. subst r. reflexivity. }
  split; [exact Hit|].
  rewrite monitor_loop_S, bind_run. cbn [get_running fst snd]. rewrite Hrun.
  rewrite bind_run, Hit. reflexivity.
Qed.

(** A monitor started outside [run()], so without handlers, over a
    healthy worker, interrupted during its ten-second sleep. *)
Definition ctrl_c : State :=
  mkState (Some 0%nat) true false [Running] []
    (mkEnv [] [] [Answered (mkResponse 200 healthy_body)] [] [] [true]).

Lemma interrupt_stops_monitor_witness :
  fst (monitor_loop 1 ctrl_c) = Ret tt /\
  count is_terminate (trace (snd (monitor_loop 1 ctrl_c))) = 0%nat.
Proof.
  destruct (interrupt_stops_monitor 0 ctrl_c) as [_ H].
  - reflexivity.
  - vm_compute. reflexivity.
  - rewrite H. split; [reflexivity | vm_compute; reflexivity].
Defined.

(** ** The two phases of shutdown *)

(** X3: [shutdown()] signals the held child only; SIGKILL, when it is
    sent, comes after SIGTERM and the ten-second wait; and when
    [shutdown()] has returned the held child is not running. *)
Theorem shutdown_escalates (st : State) (p : pid) (new : list event) :
  process st = Some p ->
  trace (snd (shutdown st)) = new ++ trace st ->
  status_of (snd (shutdown st)) p <> Running /\
  (forall q s, EvSignal q s ∈ new -> q = p) /\
  (EvSignal p SIGKILL ∈ new ->
     exists later earlier,
       new = later ++ EvSignal p SIGKILL :: EvKill p :: EvWait p (Some 10)
                   :: EvSignal p SIGTERM :: earlier).
Proof.
  intros Ho Hnew. split; [apply (shutdown_reaps st p Ho)|].
  assert (Hcase : procs st !! p = Some Running \/ exists c, status_of st p = Exited c).
  { unfold status_of. destruct (procs st !! p) as [[|c]|]; cbn; eauto. }
  revert Hnew. destruct Hcase as [Hp|[c Hc]].
  - rewrite (shutdown_running st p Ho Hp).
    destruct (hd (Some 0) (wait_q (env st))) as [c|]; cbn [snd trace]; intros Hnew.
    + change (EvLog (log_prefix +:+ "Service shutdown complete") :: EvExit p c
                :: [EvWait p (Some 10); EvSignal p SIGTERM; EvTerminate p;
                    EvLog (log_prefix +:+ "Shutting down service..."); EvShutdown] ++ trace st)
        with ([EvLog (log_prefix +:+ "Service shutdown complete"); EvExit p c;
               EvWait p (Some 10); EvSignal p SIGTERM; EvTerminate p;
               EvLog (log_prefix +:+ "Shutting down service..."); EvShutdown] ++ trace st)
        in Hnew.
      apply app_inv_tail in Hnew. subst new. split.
      * intros q s. rewrite !elem_of_cons. intros H.
        repeat (destruct H as [H|H]; [try discriminate; congruence|]). inversion H.
      * rewrite !elem_of_cons. intros H. exfalso.
        repeat (destruct H as [H|H]; [discriminate|]). inversion H.
    + change (EvLog (log_prefix +:+ "Service shutdown complete") :: EvWait p None
                :: EvExit p (-9) :: EvSignal p SIGKILL :: EvKill p
                :: [EvWait p (Some 10); EvSignal p SIGTERM; EvTerminate p;
                    EvLog (log_prefix +:+ "Shutting down service..."); EvShutdown] ++ trace st)
        with ([EvLog (log_prefix +:+ "Service shutdown complete"); EvWait p None;
               EvExit p (-9); EvSignal p SIGKILL; EvKill p;
               EvWait p (Some 10); EvSignal p SIGTERM; EvTerminate p;
               EvLog (log_prefix +:+ "Shutting down service..."); EvShutdown] ++ trace st)
        in Hnew.
      apply app_inv_tail in Hnew. subst new. split.
      * intros q s. rewrite !elem_of_cons. intros H.
        repeat (destruct H as [H|H]; [try discriminate; congruence|]). inversion H.
      * intros _.
        exists [EvLog (log_prefix +:+ "Service shutdown complete"); EvWait p None;
                EvExit p (-9)],
               [EvTerminate p; EvLog (log_prefix +:+ "Shutting down service..."); EvShutdown].
        reflexivity.
  - rewrite (shutdown_reaped st p c Ho Hc). cbn [snd]. intros Hnew.
    assert (Ht : trace (with_trace (shutdown_again p ++ trace st) (with_running false st))
                 = shutdown_again p ++ trace st) by (destruct st; reflexivity).
    rewrite Ht in Hnew. apply app_inv_tail in Hnew. subst new. unfold shutdown_again. split.
    + intros q s. rewrite !elem_of_cons. intros H.
      repeat (destruct H as [H|H]; [try discriminate; congruence|]). inversion H.
    + rewrite !elem_of_cons. intros H. exfalso.
      repeat (destruct H as [H|H]; [discriminate|]). inversion H.
Qed.

(** A supervisor whose child ignores SIGTERM for the whole ten seconds. *)
Definition stubborn_child : State :=
  mkState (Some 0%nat) true true [Running] [] (mkEnv [] [] [] [] [None] []).

Lemma shutdown_escalates_witness :
  status_of (snd (shutdown stubborn_child)) 0%nat <> Running /\
  exists later earlier,
    [EvLog (log_prefix +:+ "Service shutdown complete"); EvWait 0%nat None;
     EvExit 0%nat (-9); EvSignal 0%nat SIGKILL; EvKill 0%nat;
     EvWait 0%nat (Some 10); EvSignal 0%nat SIGTERM; EvTerminate 0%nat;
     EvLog (log_prefix +:+ "Shutting down service..."); EvShutdown]
    = later ++ EvSignal 0%nat SIGKILL :: EvKill 0%nat :: EvWait 0%nat (Some 10)
            :: EvSignal 0%nat SIGTERM :: earlier.
Proof.
  destruct (shutdown_escalates stubborn_child 0%nat
              [EvLog (log_prefix +:+ "Service shutdown complete"); EvWait 0%nat None;
               EvExit 0%nat (-9); EvSignal 0%nat SIGKILL; EvKill 0%nat;
               EvWait 0%nat (Some 10); EvSignal 0%nat SIGTERM; EvTerminate 0%nat;
               EvLog (log_prefix +:+ "Shutting down service..."); EvShutdown])
    as (H1 & _ & H3).
  - reflexivity.
  - vm_compute. reflexivity.
  - split; [exact H1|]. apply H3. rewrite !elem_of_cons. auto 10.
Defined.

(** ** A healthy round of monitoring *)

(** X4: an iteration that finds the child running and the probe healthy
    adds one request and one ten-second sleep to the trace and nothing
    else: no signal, no spawn, no log line; the handle and the process
    table are untouched and the loop goes on. *)
Theorem healthy_iteration (fuel : nat) (st : State) :
  running st = true ->
  fst (process_has_exited st) = Ret false ->
  let s1 := snd (process_has_exited st) in
  fst (check_health s1) = Ret true ->
  let s2 := snd (check_health s1) in
  fst (sleep 10 s2) = Ret tt ->
  let s3 := snd (sleep 10 s2) in
  monitor_iteration st = (Ret Next, s3) /\
  monitor_loop (S fuel) st = monitor_loop fuel s3 /\
  trace s3 = EvSleep 10 :: EvGet health_endpoint 5 :: trace st /\
  process s3 = process st /\ procs s3 = procs st /\ running s3 = true.
Proof.
  intros Hrun Hd s1 Hh s2 Hs s3.
  assert (Hit : monitor_iteration st = (Ret Next, s3)).
  { assert (Hbody : monitor_body st = (Ret Next, s3)).
    { unfold monitor_body. rewrite bind_run, Hd. rewrite bind_run.
      rewrite bind_run. fold s1. rewrite Hh. cbn [negb ret fst snd]. fold s2.
      rewrite bind_run, Hs. reflexivity. }
    unfold monitor_iteration, try_except. rewrite Hbody. reflexivity. }
  split; [exact Hit|]. split.
  { rewrite monitor_loop_S, bind_run. cbn [get_running fst snd]. rewrite Hrun.
    rewrite bind_run, Hit. reflexivity. }
  subst s3 s2 s1. rewrite (sleep_returned _ _ Hs). rewrite check_health_eq.
  cbn [snd slept with_trace trace]. revert Hrun Hd. clear.
  destruct st as [o r h ps t [eq sq hq pq wq slq]].
  unfold after_probe. unfold_ops. cbn.
  destruct o as [p|]; cbn; [|auto].
  destruct (ps !! p) as [[|c]|]; cbn; try discriminate.
  destruct (hd StillRunning pq); cbn; try discriminate. auto.
Qed.

(** A supervisor over a healthy worker. *)
Definition all_well : State :=
  mkState (Some 0%nat) true true [Running] []
    (mkEnv [] [] [Answered (mkResponse 200 healthy_body)] [] [] []).

Lemma healthy_iteration_witness :
  fst (monitor_iteration all_well) = Ret Next /\
  trace (snd (monitor_iteration all_well)) = [EvSleep 10; EvGet health_endpoint 5].
Proof.
  destruct (healthy_iteration 0 all_well) as (H & _ & Ht & _);
    [reflexivity | reflexivity | reflexivity | reflexivity |].
  rewrite H. split; [reflexivity | exact Ht].
Defined.

(** ** What a probe touches *)

(** X5: [check_health()] never raises; it sends exactly one GET, to
    [http://localhost:5001/api/player-analysis/health] with a timeout of
    five seconds, and leaves the handle, the flag and the process table
    as they were. *)
Theorem check_health_footprint (st : State) :
  let st' := snd (check_health st) in
  (exists b : bool, fst (check_health st) = Ret b) /\
  trace st' = EvGet "http://localhost:5001/api/player-analysis/health" 5 :: trace st /\
  process st' = process st /\ running st' = running st /\ procs st' = procs st.
Proof.
  cbn zeta. rewrite check_health_eq. cbn [fst snd]. split; [eauto|].
  destruct st. repeat split.
Qed.

(** ** Who spawns *)

(** The number of spawns so far, the handle and the size of the process
    table. *)
Definition same_workers (n : nat) (o : option pid) (l : nat) (st : State) : Prop :=
  count is_popen (trace st) = n /\ process st = o /\ length (procs st) = l.

Section SameWorkers.
Context (n : nat) (o : option pid) (l : nat).

Ltac same_prim :=
  let HI := fresh "HI" in
  intros [? ? ? ? ? [? ? ? ? ? ?]] HI; unfold same_workers in *;
  unfold_ops; cbn in *;
  repeat (case_match; cbn in * );
  rewrite ?length_insert;
  (split; [|intros; exact Logic.I]); auto.

Lemma same_log (msg : string) : sound (same_workers n o l) anything (log msg).
Proof. same_prim. Qed.

Lemma same_set_running (b : bool) : sound (same_workers n o l) anything (set_running b).
Proof. same_prim. Qed.

Lemma same_poll (p : pid) : sound (same_workers n o l) anything (poll p).
Proof. same_prim. Qed.

Lemma same_terminate (p : pid) : sound (same_workers n o l) anything (terminate p).
Proof. same_prim. Qed.

Lemma same_kill (p : pid) : sound (same_workers n o l) anything (kill p).
Proof. same_prim. Qed.

Lemma same_wait (p : pid) (t : option Z) : sound (same_workers n o l) anything (wait p t).
Proof. same_prim. Qed.

Lemma same_requests_get (url : string) (t : Z) :
  sound (same_workers n o l) anything (requests_get url t).
Proof. same_prim. Qed.

Lemma same_shutdown : sound (same_workers n o l) anything shutdown.
Proof.
  pose proof same_log. pose proof same_set_running. pose proof same_terminate.
  pose proof same_kill. pose proof same_wait.
  unfold shutdown. intros st HI.
  refine (emit_then (same_workers n o l) _ anything _ _ st _ _).
  - destruct st; exact HI.
  - sound_auto.
Qed.

Lemma same_sleep (secs : Z) : sound (same_workers n o l) anything (sleep secs).
Proof.
  intros st HI. split; [|intros; exact Logic.I].
  unfold sleep. destruct (hd false (sleep_q (env st))).
  - destruct (handlers st).
    + unfold signal_handler. rewrite bind_run. cbn [log emit fst snd].
      rewrite bind_run, shutdown_returns. cbn [snd raise].
      apply same_shutdown. destruct st as [? ? ? ? ? []]; exact HI.
    + destruct st as [? ? ? ? ? []]; exact HI.
  - destruct st as [? ? ? ? ? []]; exact HI.
Qed.
End SameWorkers.

(** X6: waiting for the worker to come up only observes: whatever the
    world answers and however long it waits, [wait_for_startup] spawns
    nothing, keeps the handle it found and leaves the process table at
    its size.  The same holds for [shutdown()]. *)
Theorem only_start_service_spawns (max_wait : nat) (st : State) :
  let sw := snd (wait_for_startup max_wait st) in
  let sd := snd (shutdown st) in
  (count is_popen (trace sw) = count is_popen (trace st) /\
   process sw = process st /\ length (procs sw) = length (procs st)) /\
  (count is_popen (trace sd) = count is_popen (trace st) /\
   process sd = process st /\ length (procs sd) = length (procs st)).
Proof.
  cbn zeta. split.
  - refine (proj1 (sound_wait_for_startup
             (same_workers (count is_popen (trace st)) (process st) (length (procs st)))
             anything (fun _ _ => Logic.I) _ _ _ _ max_wait st _)).
    + apply same_log.
    + apply same_poll.
    + apply same_requests_get.
    + apply same_sleep.
    + repeat split.
  - refine (proj1 (same_shutdown _ _ _ st _)). repeat split.
Qed.

(** ** Restarting *)

(** X7: when an iteration restarts the worker and the restart's
    [wait_for_startup] returns true, the iteration sleeps its ten seconds
    and the loop goes on with the next iteration: a successful restart
    logs no failure and does not end the monitoring. *)
Theorem monitor_restarts (fuel : nat) (st sr : State) :
  running st = true ->
  restart_needed st sr ->
  let sw := snd (wait_for_startup 30 (snd (start_service sr))) in
  fst (wait_for_startup 30 (snd (start_service sr))) = Ret true ->
  fst (sleep 10 sw) = Ret tt ->
  monitor_iteration st = (Ret Next, slept 10 sw) /\
  monitor_loop (S fuel) st = monitor_loop fuel (slept 10 sw).
Proof.
  intros Hrun Hneed sw Hw Hs.
  destruct (start_service_returns sr) as [b Hb].
  assert (Hbody : monitor_body st = (Ret Next, slept 10 sw)).
  { apply sleep_returned in Hs. subst sw.
    unfold monitor_body. rewrite bind_run.
    destruct Hneed as [(Hd & ->) | (Hd & Hh & Hg & ->)]; rewrite Hd.
    - rewrite bind_run. rewrite bind_run. cbn [log emit fst snd].
      rewrite bind_run. cbn [log emit fst snd] in Hb. rewrite Hb.
      rewrite bind_run. cbn [log emit fst snd] in Hw. rewrite Hw.
      cbn [negb ret fst snd]. rewrite bind_run.
      cbn [log emit fst snd] in Hs. rewrite Hs. reflexivity.
    - rewrite bind_run. rewrite bind_run, Hh. cbn [negb].
      rewrite bind_run. cbn [log emit fst snd].
      rewrite grace_stop_then, bind_run. cbn zeta in Hg. cbn [log emit fst snd] in Hg.
      rewrite Hg.
      rewrite bind_run. cbn [log emit fst snd] in Hb. rewrite Hb.
      rewrite bind_run. cbn [log emit fst snd] in Hw. rewrite Hw.
      cbn [negb ret fst snd]. rewrite bind_run.
      cbn [log emit fst snd] in Hs. rewrite Hs. reflexivity. }
  assert (Hit : monitor_iteration st = (Ret Next, slept 10 sw)).
  { unfold monitor_iteration, try_except. rewrite Hbody. reflexivity. }
  split; [exact Hit|].
  rewrite monitor_loop_S, bind_run. cbn [get_running fst snd]. rewrite Hrun.
  rewrite bind_run, Hit. reflexivity.
Qed.

(** A supervisor whose child has just crashed, in a world where the
    replacement answers its first probe. *)
Definition crashed_once : State :=
  mkState (Some 0%nat) true true [Running] []
    (mkEnv [] [] [Answered (mkResponse 200 healthy_body)] [Gone 1] [] []).

Lemma monitor_restarts_witness :
  fst (monitor_iteration crashed_once) = Ret Next /\
  process (snd (monitor_iteration crashed_once)) = Some 1%nat /\
  procs (snd (monitor_iteration crashed_once)) = [Exited 1; Running].
Proof.
  set (sr := snd (log "Service process died, restarting..."
                    (snd (process_has_exited crashed_once)))).
  destruct (monitor_restarts 0 crashed_once sr) as (H & _).
  - reflexivity.
  - left. split; [vm_compute; reflexivity | reflexivity].
  - vm_compute. reflexivity.
  - vm_compute. reflexivity.
  - rewrite H. vm_compute. auto.
Defined.

(** [start_service()] on a live handle. *)
Lemma start_service_alive (st : State) :
  fst (process_is_running st) = Ret true ->
  start_service st =
    (Ret true, snd (log "Service already running" (snd (process_is_running st)))).
Proof.
  intros Ha. unfold start_service, try_except. rewrite bind_run, Ha.
  rewrite bind_run. reflexivity.
Qed.

(** The grace period over a held child, when the sleep runs to its end. *)
Lemma grace_stop_held (st : State) (p : pid) :
  process st = Some p ->
  fst (grace_stop st) = Ret tt ->
  snd (grace_stop st) = slept 2 (snd (terminate p st)).
Proof.
  unfold grace_stop. rewrite !bind_run. cbn [get_process fst snd]. intros ->.
  rewrite !bind_run.
  assert (Ht : fst (terminate p st) = Ret tt).
  { unfold terminate. destruct (status_of st p); reflexivity. }
  rewrite Ht. intros Hs. rewrite (sleep_returned _ _ Hs). reflexivity.
Qed.

(** X8: a worker that fails its probe and is still alive two seconds
    after SIGTERM is not replaced: [start_service()] finds the handle
    live, logs [Service already running], returns true and spawns
    nothing, so the startup wait that follows probes the old process. *)
Theorem lingering_worker_not_replaced (st sr : State) :
  restart_needed st sr ->
  fst (process_is_running sr) = Ret true ->
  let ss := snd (start_service sr) in
  fst (start_service sr) = Ret true /\
  count is_popen (trace ss) = count is_popen (trace st) /\
  process ss = process st /\
  exists p, process st = Some p /\ EvSignal p SIGTERM ∈ trace sr /\
            trace ss = EvLog (log_prefix +:+ "Service already running") :: trace sr.
Proof.
  intros Hneed Ha. cbn zeta. rewrite (start_service_alive sr Ha). cbn [fst snd log emit].
  split; [reflexivity|]. revert Hneed Ha. unfold restart_needed. cbn zeta.
  rewrite check_health_eq. cbn [fst snd log emit].
  intros [[Hd ->] | (Hd & _ & Hg & ->)].
  - intros Ha. exfalso. revert Hd Ha.
    destruct st as [o r h ps t [eq sq hq pq wq slq]]. unfold_ops. cbn.
    destruct o as [p|]; cbn; [|discriminate].
    destruct (ps !! p) as [[|c]|] eqn:Hp; cbn.
    + assert (Hlt : (p < length ps)%nat) by (eapply lookup_lt_Some; eauto).
      destruct (hd StillRunning pq); cbn; try discriminate.
      rewrite list_lookup_insert_eq by lia. cbn. discriminate.
    + rewrite Hp. cbn. discriminate.
    + rewrite Hp. cbn. discriminate.
  - destruct (process st) as [p|] eqn:Ho.
    + assert (Hproc : process (snd (process_has_exited st)) = process st).
      { clear. destruct st as [o r h ps t [eq sq hq pq wq slq]]. unfold_ops. cbn.
        destruct o as [p|]; cbn; [|reflexivity].
        destruct (ps !! p) as [[|c]|]; cbn; [destruct (hd StillRunning pq)| |];
          reflexivity. }
      rewrite (grace_stop_held _ p)
        by (try exact Hg; rewrite <- Ho, <- Hproc;
            destruct (snd (process_has_exited st)); reflexivity).
      clear Hg Hproc. revert Hd Ho.
      destruct st as [o r h ps t [eq sq hq pq wq slq]].
      unfold after_probe, slept. unfold_ops. cbn. intros Hd ->. revert Hd. cbn.
      destruct (ps !! p) as [[|c]|] eqn:Hp; cbn; try discriminate.
      destruct (hd StillRunning pq); cbn; try discriminate. intros _.
      rewrite Hp. cbn. destruct (hd StillRunning (tl pq)); cbn; rewrite ?Hp; cbn;
        try discriminate.
      intros _. split; [reflexivity|]. split; [reflexivity|].
      exists p. split; [reflexivity|]. split; [|reflexivity].
      rewrite !elem_of_cons. auto.
    + intros Ha. exfalso. revert Ha Ho. clear.
      destruct st as [o r h ps t [eq sq hq pq wq slq]].
      unfold grace_stop, after_probe. unfold_ops. cbn. intros Ha ->. discriminate.
Qed.

(** A worker that answers its probe with an error and ignores SIGTERM. *)
Definition hung_worker : State :=
  mkState (Some 0%nat) true true [Running] []
    (mkEnv [] [] [Answered (mkResponse 500 Malformed)] [] [] []).

Lemma lingering_worker_not_replaced_witness :
  count is_popen
    (trace (snd (start_service
       (snd (grace_stop (snd (log "Service health check failed, restarting..."
          (snd (check_health (snd (process_has_exited hung_worker)))))))))))
  = 0%nat.
Proof.
  set (sr := snd (grace_stop (snd (log "Service health check failed, restarting..."
          (snd (check_health (snd (process_has_exited hung_worker)))))))).
  destruct (lingering_worker_not_replaced hung_worker sr) as (_ & H & _).
  - right. split; [vm_compute; reflexivity|]. split; [vm_compute; reflexivity|].
    split; [vm_compute; reflexivity | reflexivity].
  - vm_compute. reflexivity.
  - rewrite H. reflexivity.
Defined.

(** ** The worker's own health endpoint *)

(** [health_check()] of [player_analysis_service.py]: a constant JSON
    object, answered with status 200. *)
Definition health_check : response :=
  mkResponse 200
    (Json (PyDict (<[ "status" := PyStr "healthy" ]>
                  (<[ "service" := PyStr "player-analysis-microservice" ]>
                  (<[ "version" := PyStr "1.0.0" ]>
                  {[ "timestamp" := PyStr "2025-01-05T17:50:00Z" ]}))))).

(** The route of [health_check()] and the port of [app.run]. *)
Definition health_route : string := "/api/player-analysis/health".
Definition service_port : Z := 5001.

(** X9: supervisor and worker agree: the supervisor probes the port and
    route the worker serves its health check on, and the answer the
    worker gives there is one [check_health()] accepts. *)
Theorem worker_passes_probe (st : State) :
  next_probe st = Answered health_check ->
  health_endpoint = "http://localhost:" +:+ pretty service_port +:+ health_route /\
  fst (check_health st) = Ret true.
Proof.
  intros Hp. split; [vm_compute; reflexivity|].
  rewrite check_health_eq, Hp. vm_compute. reflexivity.
Qed.

Lemma worker_passes_probe_witness :
  fst (check_health (init (mkEnv [] [] [Answered health_check] [] [] []))) = Ret true.
Proof.
  apply (worker_passes_probe (init (mkEnv [] [] [Answered health_check] [] [] []))).
  reflexivity.
Defined.

(** * The runner of [run_python_service.py]

    The stand-alone script that starts the worker once, tests its health
    and waits for it.  It runs in a process of its own and installs no
    signal handler, so its theorems start from states whose [handlers]
    flag is false.  [str(v)] of a JSON value and the text the child wrote
    to its pipes are taken as given. *)

Module Runner.

(** [print(line)] *)
Definition print (line : string) : M unit := emit (EvLog line).

(** [os.chdir(path)]: an [OSError] when the directory is not there. *)
Definition chdir (path : string) : M unit :=
  found <- path_exists path;;
  if found then ret tt else raise OSError.

(** The line feed written as [\n] in a Python string. *)
Definition newline : string := String (Ascii.ascii_of_nat 10) EmptyString.

Definition workspace : string := "/home/runner/workspace".
Definition health_url : string := "http://localhost:5001/api/player-analysis/health".

(** The arguments of the [Popen] call; [bufsize] and
    [universal_newlines] are left at their defaults. *)
Definition popen_call : popen_args :=
  mkPopenArgs [sys_executable; "player_analysis_service.py"] PIPE PIPE true (-1) false.

(** [data.get(key, dflt)]: only a dict has the method. *)
Definition py_get_default (data : pyval) (key : string) (dflt : pyval) : M pyval :=
  match data with
  | PyDict d => ret (default dflt (d !! key))
  | _ => raise AttributeError
  end.

(** [process.wait()] with no timeout.  A child already reaped is returned
    at once; otherwise the call blocks, and a SIGINT may arrive before
    the child exits; the call is resumed when a handler returns. *)
Definition wait_forever (p : pid) : M Z :=
  fun st =>
    match status_of st p with
    | Exited _ => wait p None st
    | Running =>
        let e := env st in
        let st1 := with_env (mkEnv (exists_q e) (spawn_q e) (http_q e) (poll_q e)
                                   (wait_q e) (tl (sleep_q e))) st in
        if hd false (sleep_q e) then
          let st2 := with_trace (EvInterrupt :: EvWait p None :: trace st1) st1 in
          if handlers st then (signal_handler 2;; wait p None) st2
          else (Raise KeyboardInterrupt, st2)
        else wait p None st1
    end.

Section Given.
Context (py_str : pyval -> string) (captured : pid -> string * string).

(** [process.communicate()]: the captured output, once the child is
    gone. *)
Definition communicate (p : pid) : M (string * string) :=
  wait p None;;
  ret (captured p).

(** The inner [try] of [start_service()]: the health test. *)
Definition health_test : M unit :=
  try_except
    (response <- requests_get health_url 5;;
     if (status_code response =? 200)%Z then
       print "✅ Python ML service health check passed";;
       data <- json response;;
       service <- py_get_default data "service" (PyStr "unknown");;
       print ("Service: " +:+ py_str service);;
       status <- py_get_default data "status" (PyStr "unknown");;
       print ("Status: " +:+ py_str status);;
       version <- py_get_default data "version" (PyStr "unknown");;
       print ("Version: " +:+ py_str version)
     else
       print ("❌ Health check failed: " +:+ pretty (status_code response)))
    (except is_Exception (fun e =>
       print ("❌ Health check error: " +:+ exn_str e))).

(** [start_service()].  The traceback the last handler prints goes to
    the standard error stream, which the trace does not record. *)
Definition start_service : M unit :=
  try_except
    (print "🚀 Starting Platinum Scout Python ML Service...";;
     chdir workspace;;
     p <- popen popen_call;;
     print ("Python ML service started with PID: " +:+ pretty p);;
     sleep 3;;
     c <- poll p;;
     match c with
     | None =>
         print "✅ Python ML service is running successfully";;
         health_test;;
         try_except (wait_forever p;; ret tt)
           (except is_KeyboardInterrupt (fun _ =>
              print (newline +:+ "🛑 Stopping Python ML service...");;
              terminate p;;
              wait_forever p;;
              print "✅ Python ML service stopped"))
     | Some _ =>
         print "❌ Python ML service failed to start";;
         out <- communicate p;;
         print ("stdout: " +:+ fst out);;
         print ("stderr: " +:+ snd out)
     end)
    (except is_Exception (fun e =>
       print ("❌ Failed to start Python ML service: " +:+ exn_str e))).
End Given.

End Runner.

(** ** What the runner does *)

(** Printing and requesting: the events that touch no process. *)
Definition chatter (e : event) : bool :=
  match e with
  | EvLog _ | EvGet _ _ => true
  | _ => false
  end.

Lemma count_chatter (f : event -> bool) (new : list event) :
  (forall e, chatter e = true -> f e = false) ->
  Forall (fun e => chatter e = true) new ->
  count f new = 0%nat.
Proof.
  intros Hf. induction 1 as [|e new He _ IH]; [reflexivity|].
  cbn. rewrite (Hf e He). exact IH.
Qed.

Ltac unfold_runner :=
  unfold Runner.health_test, Runner.communicate, Runner.chdir, Runner.py_get_default,
    Runner.print, json in *.

Section RunnerFacts.
Context (py_str : pyval -> string) (captured : pid -> string * string).

(** The health test always returns; it consumes one answer and adds one
    request and some printed lines. *)
Lemma health_test_frame (st : State) :
  exists new,
    Runner.health_test py_str st =
      (Ret tt,
       with_trace (new ++ trace st)
         (with_env (mkEnv (exists_q (env st)) (spawn_q (env st)) (tl (http_q (env st)))
                          (poll_q (env st)) (wait_q (env st)) (sleep_q (env st))) st)) /\
    count is_get new = 1%nat /\
    Forall (fun e => chatter e = true) new.
Proof.
  destruct st as [o r h ps t [eq sq hq pq wq slq]].
  unfold_runner. unfold_ops. cbn.
  destruct (hd Refused hq) as [| |[code pl]]; cbn;
    [| |destruct (code =? 200)%Z; cbn; [destruct pl as [|[]]; cbn|]].
  all: first [ eexists [_; _]; split; [reflexivity|]
             | eexists [_; _; _]; split; [reflexivity|]
             | eexists [_; _; _; _; _]; split; [reflexivity|] ].
  all: split; [reflexivity|]; repeat constructor.
Qed.

(** X10: the health test of the runner is advisory.  When the worker
    comes up and nothing interrupts the runner, then whatever the health
    request meets, the runner sends that one request, goes on to wait
    for the worker, never calls [terminate], and returns when the worker
    exits. *)
Theorem runner_health_is_advisory (st : State) (c : Z) :
  hd true (exists_q (env st)) = true ->
  hd true (spawn_q (env st)) = true ->
  hd false (sleep_q (env st)) = false ->
  hd StillRunning (poll_q (env st)) = StillRunning ->
  hd false (tl (sleep_q (env st))) = false ->
  hd (Some 0) (wait_q (env st)) = Some c ->
  let st' := snd (Runner.start_service py_str captured st) in
  fst (Runner.start_service py_str captured st) = Ret tt /\
  status_of st' (length (procs st)) = Exited c /\
  count is_get (trace st') = S (count is_get (trace st)) /\
  count is_terminate (trace st') = count is_terminate (trace st) /\
  http_q (env st') = tl (http_q (env st)).
Proof.
  destruct st as [o r h ps t [eq sq hq pq wq slq]]. cbn.
  intros He Hs Hq Hp Hq2 Hw.
  assert (Hnew : default (Exited 0) ((ps ++ [Running]) !! length ps) = Running).
  { rewrite lookup_app_r by lia. rewrite Nat.sub_diag. reflexivity. }
  assert (Hins : default (Exited 0) (<[length ps := Exited c]> (ps ++ [Running]) !! length ps)
                 = Exited c).
  { rewrite list_lookup_insert_eq by (rewrite length_app; cbn; lia). reflexivity. }
  unfold Runner.start_service, try_except.
  unfold Runner.chdir, Runner.print, sleep, popen, path_exists, poll, status_of. unfold_monad.
  cbn. rewrite He. cbn. rewrite Hs. cbn. rewrite Hq. cbn.
  unfold pid in *. rewrite Hnew. cbn. rewrite Hp. cbn.
  match goal with
  | |- context [Runner.health_test py_str ?s] =>
      destruct (health_test_frame s) as (new & Hn & Hget & Hall); rewrite Hn
  end.
  cbn. unfold Runner.wait_forever, wait, status_of, mark_exited. cbn.
  unfold pid in *. rewrite Hnew. cbn. rewrite Hq2. cbn. rewrite ?Hnew. cbn. rewrite Hw. cbn.
  split; [reflexivity|]. split; [exact Hins|].
  rewrite !count_app, Hget.
  rewrite (count_chatter is_terminate new) by (try exact Hall; intros []; cbn; congruence).
  cbn. split; [lia|]. split; reflexivity.
Qed.


(** X12: Ctrl+C during the three-second start-up sleep is not caught:
    [KeyboardInterrupt] leaves [start_service()], the worker just
    spawned is still running and has been sent nothing. *)
Theorem runner_interrupted_early (st : State) :
  handlers st = false ->
  hd true (exists_q (env st)) = true ->
  hd true (spawn_q (env st)) = true ->
  hd false (sleep_q (env st)) = true ->
  let st' := snd (Runner.start_service py_str captured st) in
  let p := length (procs st) in
  fst (Runner.start_service py_str captured st) = Raise KeyboardInterrupt /\
  status_of st' p = Running /\
  trace st' = EvInterrupt :: EvSleep 3
                :: EvLog ("Python ML service started with PID: " +:+ pretty p)
                :: EvPopen p Runner.popen_call
                :: EvLog "🚀 Starting Platinum Scout Python ML Service..." :: trace st.
Proof.
  destruct st as [o r h ps t [eq sq hq pq wq slq]]. cbn.
  intros -> He Hs Hq.
  assert (Hnew : default (Exited 0) ((ps ++ [Running]) !! length ps) = Running).
  { rewrite lookup_app_r by lia. rewrite Nat.sub_diag. reflexivity. }
  unfold Runner.start_service, try_except.
  unfold Runner.chdir, Runner.print, sleep, popen, path_exists, poll, status_of. unfold_monad.
  cbn. rewrite He. cbn. rewrite Hs. cbn. rewrite Hq. cbn.
  split; [reflexivity|]. split; [exact Hnew | reflexivity].
Qed.

(** X13: a worker found gone after the three seconds is reported, not
    probed: the runner prints what the worker wrote to its two pipes,
    sends no health request and returns normally. *)
Theorem runner_reports_early_exit (st : State) (c : Z) :
  hd true (exists_q (env st)) = true ->
  hd true (spawn_q (env st)) = true ->
  hd false (sleep_q (env st)) = false ->
  hd StillRunning (poll_q (env st)) = Gone c ->
  let st' := snd (Runner.start_service py_str captured st) in
  let p := length (procs st) in
  fst (Runner.start_service py_str captured st) = Ret tt /\
  status_of st' p = Exited c /\
  trace st' = EvLog ("stderr: " +:+ snd (captured p))
                :: EvLog ("stdout: " +:+ fst (captured p))
                :: EvWait p None
                :: EvLog "❌ Python ML service failed to start"
                :: EvExit p c :: EvSleep 3
                :: EvLog ("Python ML service started with PID: " +:+ pretty p)
                :: EvPopen p Runner.popen_call
                :: EvLog "🚀 Starting Platinum Scout Python ML Service..." :: trace st.
Proof.
  destruct st as [o r h ps t [eq sq hq pq wq slq]]. cbn.
  intros He Hs Hq Hp.
  assert (Hnew : default (Exited 0) ((ps ++ [Running]) !! length ps) = Running).
  { rewrite lookup_app_r by lia. rewrite Nat.sub_diag. reflexivity. }
  assert (Hins : default (Exited 0) (<[length ps := Exited c]> (ps ++ [Running]) !! length ps)
                 = Exited c).
  { rewrite list_lookup_insert_eq by (rewrite length_app; cbn; lia). reflexivity. }
  unfold Runner.start_service, try_except.
  unfold Runner.chdir, Runner.print, Runner.communicate, sleep, popen, path_exists, poll,
    wait, status_of, mark_exited.
  unfold_monad.
  cbn. rewrite He. cbn. rewrite Hs. cbn. rewrite Hq. cbn.
  unfold pid in *. rewrite Hnew. cbn. rewrite Hp. cbn. rewrite Hins. cbn.
  split; [reflexivity|]. split; [exact Hins | reflexivity].
Qed.

(** X14: a launch that fails is reported, not raised: when the working
    directory is missing or the spawn raises, the runner prints the
    failure and returns normally, having started nothing. *)
Theorem runner_launch_failure (st : State) :
  hd true (exists_q (env st)) = false \/ hd true (spawn_q (env st)) = false ->
  let st' := snd (Runner.start_service py_str captured st) in
  fst (Runner.start_service py_str captured st) = Ret tt /\
  procs st' = procs st /\
  trace st' = EvLog "❌ Failed to start Python ML service: OSError"
                :: EvLog "🚀 Starting Platinum Scout Python ML Service..." :: trace st.
Proof.
  destruct st as [o r h ps t [eq sq hq pq wq slq]]. cbn.
  intros Hfail.
  unfold Runner.start_service, try_except.
  unfold Runner.chdir, Runner.print, popen, path_exists. unfold_monad.
  cbn. destruct (hd true eq); cbn.
  - destruct Hfail as [[=]|Hs]. rewrite Hs. cbn. auto.
  - auto.
Qed.

(** The runner installs no handler, and nothing it calls does. *)
Definition no_handlers (st : State) : Prop := handlers st = false.

(** What can be raised where no handler is installed: an [Exception], or
    the [KeyboardInterrupt] of the default SIGINT disposition. *)
Definition plain (e : exn) : Prop := is_Exception e = true \/ e = KeyboardInterrupt.

Ltac plain_prim :=
  let HI := fresh "HI" in
  intros [? ? ? ? ? [? ? ? ? ? ?]] HI; unfold no_handlers, plain in *;
  cbn in HI; subst;
  unfold Runner.wait_forever, Runner.print, sleep, wait; unfold_ops; cbn in *;
  repeat (case_match; cbn in * ); try discriminate;
  (split; [first [assumption | reflexivity]|]); intros ? [= <-]; auto.

Lemma plain_print (line : string) : sound no_handlers plain (Runner.print line).
Proof. plain_prim. Qed.

Lemma plain_path_exists (path : string) : sound no_handlers plain (path_exists path).
Proof. plain_prim. Qed.

Lemma plain_popen (args : popen_args) : sound no_handlers plain (popen args).
Proof. plain_prim. Qed.

Lemma plain_sleep (secs : Z) : sound no_handlers plain (sleep secs).
Proof. plain_prim. Qed.

Lemma plain_poll (p : pid) : sound no_handlers plain (poll p).
Proof. plain_prim. Qed.

Lemma plain_terminate (p : pid) : sound no_handlers plain (terminate p).
Proof. plain_prim. Qed.

Lemma plain_wait (p : pid) (t : option Z) : sound no_handlers plain (wait p t).
Proof. plain_prim. Qed.

Lemma plain_wait_forever (p : pid) : sound no_handlers plain (Runner.wait_forever p).
Proof. plain_prim. Qed.

Lemma plain_requests_get (url : string) (t : Z) :
  sound no_handlers plain (requests_get url t).
Proof. plain_prim. Qed.

Lemma plain_py_get_default (data : pyval) (key : string) (dflt : pyval) :
  sound no_handlers plain (Runner.py_get_default data key dflt).
Proof.
  unfold Runner.py_get_default.
  destruct data; try (apply sound_raise; left; reflexivity). apply sound_ret.
Qed.

(** X15: nothing but [KeyboardInterrupt] leaves the runner: every
    [Exception] raised on the way, by the change of directory, the
    spawn, the poll or the health test, is caught and printed. *)
Theorem runner_only_interrupt_escapes (st : State) (e : exn) :
  handlers st = false ->
  fst (Runner.start_service py_str captured st) = Raise e ->
  e = KeyboardInterrupt.
Proof.
  intros Hh.
  pose proof plain_print. pose proof plain_path_exists. pose proof plain_popen.
  pose proof plain_sleep. pose proof plain_poll. pose proof plain_terminate.
  pose proof plain_wait. pose proof plain_wait_forever. pose proof plain_requests_get.
  pose proof plain_py_get_default.
  assert (Hexc : forall e0, is_Exception e0 = true -> plain e0) by (intros; left; assumption).
  unfold Runner.start_service, try_except.
  match goal with
  | |- fst (match ?body st with _ => _ end) = _ -> _ =>
      assert (Hbody : sound no_handlers plain body)
  end.
  { unfold Runner.chdir, Runner.health_test, Runner.communicate.
    repeat first [sound_step | apply sound_raise; left; reflexivity]. }
  destruct (Hbody st Hh) as [_ Hr].
  match goal with
  | |- fst (match ?body st with _ => _ end) = _ -> _ =>
      destruct (body st) as [[a|e0|] s1]
  end; cbn; try discriminate.
  destruct (Hr e0 eq_refl) as [He0 | ->].
  - unfold except. rewrite He0. discriminate.
  - cbn. intros [= <-]. reflexivity.
Qed.
End RunnerFacts.

(** Stand-ins for [str] and for what the worker wrote, for the examples
    below. *)
Definition plain_str (v : pyval) : string :=
  match v with
  | PyStr s => s
  | _ => "?"
  end.
Definition silent (p : pid) : string * string := (EmptyString, EmptyString).
Definition wrote_boom (p : pid) : string * string := ("boom", EmptyString).

(** A world in which the worker comes up, answers its health check and
    later exits with code 0. *)
Definition runner_world : Env :=
  mkEnv [true] [true] [Answered health_check] [StillRunning] [Some 0] [false; false].

Lemma runner_health_is_advisory_witness :
  fst (Runner.start_service plain_str silent (init runner_world)) = Ret tt.
Proof.
  destruct (runner_health_is_advisory plain_str silent (init runner_world) 0)
    as [H _]; [reflexivity..|exact H].
Defined.



(** A world in which a SIGINT arrives during the first sleep. *)
Definition runner_world_early : Env := mkEnv [true] [true] [] [] [] [true].

Lemma runner_interrupted_early_witness :
  fst (Runner.start_service plain_str silent (init runner_world_early))
  = Raise KeyboardInterrupt.
Proof.
  destruct (runner_interrupted_early plain_str silent
              (init runner_world_early)) as [H _]; [reflexivity..|exact H].
Defined.

(** A world in which the worker exits with code 1 within three seconds. *)
Definition runner_world_dead : Env := mkEnv [true] [true] [] [Gone 1] [] [].

Lemma runner_reports_early_exit_witness :
  count is_get
    (trace (snd (Runner.start_service plain_str wrote_boom
                   (init runner_world_dead)))) = 0%nat.
Proof.
  destruct (runner_reports_early_exit plain_str wrote_boom
              (init runner_world_dead) 1) as (_ & _ & H); [reflexivity..|].
  rewrite H. reflexivity.
Defined.

Lemma runner_launch_failure_witness :
  fst (Runner.start_service plain_str silent (init env_no_spawn)) = Ret tt.
Proof.
  destruct (runner_launch_failure plain_str silent (init env_no_spawn))
    as [H _]; [right; reflexivity | exact H].
Defined.

Lemma runner_only_interrupt_escapes_witness :
  fst (Runner.start_service plain_str silent (init runner_world_early))
    = Raise KeyboardInterrupt /\
  KeyboardInterrupt = KeyboardInterrupt.
Proof.
  split; [reflexivity|].
  apply (runner_only_interrupt_escapes plain_str silent
           (init runner_world_early) KeyboardInterrupt); reflexivity.
Defined.

(** * The request handlers of [player_analysis_service.py]

    The two POST handlers check their input before they compute, and
    turn every exception into a 500 answer.  The embedding follows their
    control flow.  What Python computes on floats and strings ([str],
    [round], [sum], [min], [max], truth of a float) and the analysis
    proper, which draws random numbers and renders a chart, are taken as
    given; random draws come from an oracle. *)

Module Service.

(** The exceptions a handler can run into; every one derives from
    [Exception]. *)
Inductive pyerr :=
  | BadRequest                   (* request.get_json() on a body that is not JSON *)
  | AttributeErr                 (* .get on a value that has no such method *)
  | TypeErr                      (* len() of an unsized value, arithmetic on a wrong type *)
  | KeyErr                       (* d[k] for a missing key *)
  | UnboundLocalErr (name : string).

(** The draws [random.randint] and [random.uniform] will return. *)
Record oracle := mkOracle { ints : list Z; floats : list string }.

Definition H (A : Type) : Type := oracle -> (A + pyerr) * oracle.

Definition hret {A} (a : A) : H A := fun o => (inl a, o).
Definition hraise {A} (e : pyerr) : H A := fun o => (inr e, o).
Definition hbind {A B} (m : H A) (k : A -> H B) : H B :=
  fun o =>
    match m o with
    | (inl a, o') => k a o'
    | (inr e, o') => (inr e, o')
    end.

(** [try: m  except Exception as e: h e] *)
Definition htry {A} (m : H A) (h : pyerr -> H A) : H A :=
  fun o =>
    match m o with
    | (inr e, o') => h e o'
    | other => other
    end.

(** A library function that returns or raises, run inside a handler. *)
Definition lift {A} (r : A + pyerr) : H A := fun o => (r, o).

Declare Scope svc_scope.
Delimit Scope svc_scope with svc.
Bind Scope svc_scope with H.
Notation "x <- m ;; k" := (hbind m (fun x => k))
  (at level 100, m at next level, k at level 200, right associativity) : svc_scope.
Notation "m ;; k" := (hbind m (fun _ => k))
  (at level 100, k at level 200, right associativity) : svc_scope.
#[local] Open Scope svc_scope.

(** [random.randint(lo, hi)] *)
Definition randint (lo hi : Z) : H pyval :=
  fun o => (inl (PyInt (lo + hd 0 (ints o) mod (hi - lo + 1))),
            mkOracle (tl (ints o)) (floats o)).

(** [random.uniform(lo, hi)], by the literal of the float drawn. *)
Definition uniform (lo hi : string) : H pyval :=
  fun o => (inl (PyFloat (hd lo (floats o))), mkOracle (ints o) (tl (floats o))).

(** [request.get_json()] *)
Definition get_json (req : body) : H pyval :=
  match req with
  | Malformed => hraise BadRequest
  | Json v => hret v
  end.

(** [data.get(key, dflt)] *)
Definition py_get_or (data : pyval) (key : string) (dflt : pyval) : H pyval :=
  match data with
  | PyDict d => hret (default dflt (d !! key))
  | _ => hraise AttributeErr
  end.

(** [data.get(key, draw())]: the method is looked up before the default
    is computed, so a value without [get] raises before anything is
    drawn. *)
Definition py_get_or_draw (data : pyval) (key : string) (draw : H pyval) : H pyval :=
  match data with
  | PyDict d => dflt <- draw;; hret (default dflt (d !! key))
  | _ => hraise AttributeErr
  end.

(** A byte that continues a UTF-8 sequence. *)
Definition is_continuation (a : Ascii.ascii) : bool :=
  let n := Ascii.nat_of_ascii a in (128 <=? n)%nat && (n <? 192)%nat.

(** The characters of a string held as UTF-8. *)
Fixpoint chars (s : string) : list string :=
  match s with
  | EmptyString => []
  | String a s' =>
      let cs := chars s' in
      match s' with
      | String b _ =>
          if is_continuation b then
            match cs with
            | c :: cs' => String a c :: cs'
            | [] => [String a EmptyString]
            end
          else String a EmptyString :: cs
      | EmptyString => String a EmptyString :: cs
      end
  end.

(** [len(v)] *)
Definition py_len (v : pyval) : Z + pyerr :=
  match v with
  | PyStr s => inl (Z.of_nat (length (chars s)))
  | PyList l => inl (Z.of_nat (length l))
  | PyDict d => inl (Z.of_nat (size d))
  | _ => inr TypeErr
  end.

(** What [for x in v] runs through.  The keys of a dict come in the order
    of the map. *)
Definition py_iter (v : pyval) : (list pyval) + pyerr :=
  match v with
  | PyStr s => inl (PyStr <$> chars s)
  | PyList l => inl l
  | PyDict d => inl (PyStr <$> (map_to_list d).*1)
  | _ => inr TypeErr
  end.

(** [v[i]] for an index [i] below [len(v)].  The keys of a JSON object
    are strings, so an integer is never among them. *)
Definition py_index (v : pyval) (i : nat) : pyval + pyerr :=
  match v with
  | PyStr s => inl (PyStr (nth i (chars s) EmptyString))
  | PyList l => inl (nth i l PyNone)
  | PyDict _ => inr KeyErr
  | _ => inr TypeErr
  end.

(** [v[key]] *)
Definition py_item (v : pyval) (key : string) : pyval + pyerr :=
  match v with
  | PyDict d => match d !! key with Some x => inl x | None => inr KeyErr end
  | _ => inr TypeErr
  end.

(** Reading a local variable that no assignment has reached yet. *)
Definition unbound_local (name : string) : H pyval := hraise (UnboundLocalErr name).

(** [jsonify(v), code] *)
Definition jsonify (v : pyval) (code : Z) : response := mkResponse code (Json v).

Definition error_body (msg : string) : pyval := PyDict {[ "error" := PyStr msg ]}.

Section Given.
Context (py_str : pyval -> string) (err_str : pyerr -> string)
        (float_nonzero : string -> bool)
        (mean2 lowest highest : list pyval -> pyval + pyerr)
        (best : list pyval -> nat + pyerr)
        (analysis : pyval -> pyval -> H pyval).

(** The truth value of [v], as [not v] and [if v] take it. *)
Definition py_truthy (v : pyval) : bool :=
  match v with
  | PyNone => false
  | PyBool b => b
  | PyInt z => negb (z =? 0)%Z
  | PyFloat l => float_nonzero l
  | PyStr s => negb (String.eqb s EmptyString)
  | PyList l => negb (bool_decide (l = []))
  | PyDict d => negb (bool_decide (size d = 0%nat))
  end.

(** [analyze_player()].  [analysis] stands for the statements between
    the check of the name and the final [jsonify]. *)
Definition analyze_player (req : body) : H response :=
  htry
    (data <- get_json req;;
     player_name <- py_get_or data "player_name" (PyStr EmptyString);;
     player_data <- py_get_or data "player_data" (PyDict ∅);;
     if negb (py_truthy player_name) then
       hret (jsonify (error_body "Player name is required") 400)
     else
       result <- analysis player_name player_data;;
       hret (jsonify result 200))
    (fun e => hret (jsonify (error_body ("Analysis failed: " +:+ err_str e)) 500)).

(** One entry of [comparison_data]. *)
Definition comparison_row (name player_data : pyval) : H pyval :=
  rating <- py_get_or_draw player_data "averageRating" (uniform "6.0" "9.0");;
  goals <- py_get_or_draw player_data "goals" (randint 0 25);;
  assists <- py_get_or_draw player_data "assists" (randint 0 15);;
  age <- py_get_or_draw player_data "age" (randint 18 35);;
  position <- py_get_or player_data "position" (PyStr "Midfielder");;
  hret (PyDict (<[ "name" := name ]>
               (<[ "overall_rating" := rating ]>
               (<[ "goals" := goals ]>
               (<[ "assists" := assists ]>
               (<[ "age" := age ]>
               {[ "position" := position ]})))))).

(** The loop [for i, name in enumerate(player_names)], from index [i]
    on. *)
Fixpoint comparison_rows (names : list pyval) (i : nat) (players_data : pyval)
    : H (list pyval) :=
  match names with
  | [] => hret []
  | name :: rest =>
      n <- lift (py_len players_data);;
      player_data <- (if (Z.of_nat i <? n)%Z then lift (py_index players_data i)
                      else hret (PyDict ∅));;
      row <- comparison_row name player_data;;
      rows <- comparison_rows rest (S i) players_data;;
      hret (row :: rows)
  end.

(** [p['overall_rating']] and [p['name']] of a row built above. *)
Definition field (key : string) (row : pyval) : pyval :=
  match row with
  | PyDict d => default PyNone (d !! key)
  | _ => PyNone
  end.

(** [compare_players()].  The dict assigned to [comparison] is built
    entry by entry; its [insights] entry reads [comparison] itself, which
    is still unassigned while the dict is being built. *)
Definition compare_players (req : body) : H response :=
  htry
    (data <- get_json req;;
     player_names <- py_get_or data "player_names" (PyList []);;
     players_data <- py_get_or data "players_data" (PyList []);;
     n <- lift (py_len player_names);;
     if (n <? 2)%Z then
       hret (jsonify (error_body "At least 2 players required for comparison") 400)
     else
       names <- lift (py_iter player_names);;
       comparison_data <- comparison_rows names 0 players_data;;
       let ratings := field "overall_rating" <$> comparison_data in
       mean <- lift (mean2 ratings);;
       lo <- lift (lowest ratings);;
       hi <- lift (highest ratings);;
       b <- lift (best ratings);;
       let statistical_analysis :=
         PyDict {[ "overall_rating" :=
           PyDict (<[ "mean" := mean ]>
                  (<[ "std" := PyFloat "0.5" ]>
                  (<[ "min" := lo ]>
                  (<[ "max" := hi ]>
                  {[ "best_player" := field "name" (nth b comparison_data PyNone) ]})))) ]} in
       comparison <- unbound_local "comparison";;
       sa <- lift (py_item comparison "statistical_analysis");;
       r <- lift (py_item sa "overall_rating");;
       best_player <- lift (py_item r "best_player");;
       comparison' <- unbound_local "comparison";;
       sa' <- lift (py_item comparison' "statistical_analysis");;
       r' <- lift (py_item sa' "overall_rating");;
       mean' <- lift (py_item r' "mean");;
       let insights :=
         PyList [ PyStr (py_str best_player +:+ " has the highest overall rating");
                  PyStr ("Average team rating: " +:+ py_str mean');
                  PyStr "Consider player age and potential when making decisions" ] in
       hret (jsonify
         (PyDict (<[ "players" := player_names ]>
                 (<[ "comparison_table" :=
                       PyDict (<[ "data" := PyList comparison_data ]>
                              {[ "attributes" :=
                                   PyList [PyStr "overall_rating"; PyStr "goals";
                                           PyStr "assists"; PyStr "age"] ]}) ]>
                 (<[ "statistical_analysis" := statistical_analysis ]>
                 (<[ "visualizations" :=
                       PyDict {[ "comparison_radar" :=
                                   PyStr "data:image/png;base64,placeholder" ]} ]>
                 (<[ "insights" := insights ]>
                 (<[ "data_source" :=
                       PyStr (if py_truthy players_data then "live_database"
                              else "generated") ]>
                 {[ "timestamp" := PyStr "2025-01-05T17:50:00Z" ]}))))))) 200))
    (fun e => hret (jsonify (error_body ("Comparison failed: " +:+ err_str e)) 500)).
End Given.

End Service.

(** ** What the handlers answer *)

Section ServiceFacts.
Context (py_str : pyval -> string) (err_str : Service.pyerr -> string)
        (float_nonzero : string -> bool)
        (mean2 lowest highest : list pyval -> pyval + Service.pyerr)
        (best : list pyval -> nat + Service.pyerr)
        (analysis : pyval -> pyval -> Service.H pyval).

(** The request is a JSON object that names fewer than two players. *)
Definition too_few_players (req : body) : Prop :=
  exists (d : gmap string pyval) (n : Z),
    req = Json (PyDict d) /\
    Service.py_len (default (PyList []) (d !! "player_names")) = inl n /\
    (n < 2)%Z.

(** X16: [compare_players] never answers 200.  It answers 400 exactly
    when the request is a JSON object that names fewer than two players,
    and 500 in every other case: with two names or more the handler
    reads its local [comparison] while the dict to be assigned to it is
    still being built, and the [except] clause turns the error into a
    500. *)
Theorem compare_players_never_succeeds (req : body) (o : Service.oracle) :
  exists resp,
    fst (Service.compare_players py_str err_str float_nonzero mean2 lowest highest best req o)
      = inl resp /\
    (status_code resp = 400 \/ status_code resp = 500) /\
    (status_code resp = 400 <-> too_few_players req).
Proof.
  unfold too_few_players, Service.compare_players, Service.htry.
  destruct req as [|v].
  { eexists. split; [reflexivity|]. split; [right; reflexivity|].
    split; [discriminate | intros (d & n & [=] & _)]. }
  destruct v as [| | | | | |d];
    try (eexists; split; [reflexivity|]; split; [right; reflexivity|];
         split; [discriminate | intros (d & n & [=] & _)]).
  unfold Service.hbind at 1. cbn [Service.get_json Service.hret].
  unfold Service.hbind at 1. cbn [Service.py_get_or Service.hret].
  unfold Service.hbind at 1. cbn [Service.py_get_or Service.hret].
  unfold Service.hbind at 1. unfold Service.lift at 1.
  destruct (Service.py_len (default (PyList []) (d !! "player_names"))) as [n|e] eqn:Hlen.
  2:{ eexists. split; [reflexivity|]. split; [right; reflexivity|].
      split; [discriminate | intros (d' & n & [= <-] & Hn & _); congruence]. }
  destruct (Z.ltb_spec n 2) as [Hlt|Hge].
  { eexists. split; [reflexivity|]. split; [left; reflexivity|].
    split; [intros _; eauto | reflexivity]. }
  unfold Service.hbind at 1. unfold Service.lift at 1.
  destruct (Service.py_iter (default (PyList []) (d !! "player_names"))) as [names|e].
  2:{ eexists. split; [reflexivity|]. split; [right; reflexivity|].
      split; [discriminate | intros (d' & n' & [= <-] & Hn & ?)].
      rewrite Hlen in Hn. injection Hn as <-. lia. }
  unfold Service.hbind, Service.lift, Service.unbound_local, Service.hraise.
  destruct (Service.comparison_rows names 0 _ o) as [[cd|e] o1]; cbn;
    [destruct (mean2 _); [destruct (lowest _); [destruct (highest _); [destruct (best _)|]|]|]|].
  all: eexists; split; [reflexivity|]; split; [right; reflexivity|].
  all: split; [discriminate | intros (d' & n' & [= <-] & Hn & ?)].
  all: rewrite Hlen in Hn; injection Hn as <-; lia.
Qed.

(** A dict, the only value with a [get] method. *)
Definition is_dict (v : pyval) : Prop := exists d, v = PyDict d.

Lemma comparison_row_returns (name : pyval) (d : gmap string pyval) (o : Service.oracle) :
  exists row o', Service.comparison_row name (PyDict d) o = (inl row, o').
Proof. eexists. eexists. reflexivity. Qed.

(** Over a list of dicts the loop builds its rows without an error. *)
Lemma comparison_rows_return (names pds : list pyval) (i : nat) (o : Service.oracle) :
  Forall is_dict pds ->
  exists rows o', Service.comparison_rows names i (PyList pds) o = (inl rows, o').
Proof.
  intros Hd. revert i o. induction names as [|name names IH]; intros i o.
  { eexists. eexists. reflexivity. }
  cbn [Service.comparison_rows]. unfold Service.hbind at 1. cbn [Service.lift Service.py_len].
  assert (Hpd : exists d,
            (if (Z.of_nat i <? Z.of_nat (length pds))%Z
             then Service.lift (Service.py_index (PyList pds) i)
             else Service.hret (PyDict ∅)) o = (inl (PyDict d), o)).
  { destruct (Z.ltb_spec (Z.of_nat i) (Z.of_nat (length pds))) as [Hlt|Hge]; [|eauto].
    cbn. destruct (nth_lookup_or_length pds i PyNone) as [Hl|Hl]; [|lia].
    rewrite Forall_forall in Hd. destruct (Hd _ (list_elem_of_lookup_2 _ _ _ Hl)) as [d ->].
    eauto. }
  destruct Hpd as [d Hpd]. unfold Service.hbind at 1. rewrite Hpd.
  destruct (comparison_row_returns name d o) as (row & o1 & Hrow).
  unfold Service.hbind at 1. rewrite Hrow.
  destruct (IH (S i) o1) as (rows & o2 & Hrows).
  unfold Service.hbind at 1. rewrite Hrows. eexists. eexists. reflexivity.
Qed.

(** The ratings of the rows the loop builds for a request: what the
    statistics of [compare_players] are computed on. *)
Definition request_ratings (names : list pyval) (players_data : pyval)
    (o : Service.oracle) : list pyval :=
  match fst (Service.comparison_rows names 0 players_data o) with
  | inl rows => Service.field "overall_rating" <$> rows
  | inr _ => []
  end.

(** X17: a well-formed comparison request fails too.  With a list of two
    names or more and a list of dicts as data, whenever the statistics
    go through on the ratings of this request's rows, [compare_players]
    still answers 500, and the error it reports is the read of its
    unassigned local [comparison]. *)
Theorem compare_players_valid_request_fails
    (d : gmap string pyval) (names pds : list pyval) (o : Service.oracle) :
  d !! "player_names" = Some (PyList names) ->
  (2 <= length names)%nat ->
  d !! "players_data" = Some (PyList pds) ->
  Forall is_dict pds ->
  (exists v, mean2 (request_ratings names (PyList pds) o) = inl v) ->
  (exists v, lowest (request_ratings names (PyList pds) o) = inl v) ->
  (exists v, highest (request_ratings names (PyList pds) o) = inl v) ->
  (exists i, best (request_ratings names (PyList pds) o) = inl i) ->
  fst (Service.compare_players py_str err_str float_nonzero mean2 lowest highest best
         (Json (PyDict d)) o)
  = inl (Service.jsonify
           (Service.error_body
              ("Comparison failed: " +:+ err_str (Service.UnboundLocalErr "comparison")))
           500).
Proof.
  intros Hn Hlen Hp Hd Hmean Hlo Hhi Hbest.
  unfold Service.compare_players, Service.htry.
  unfold Service.hbind at 1. cbn [Service.get_json Service.hret].
  unfold Service.hbind at 1. cbn [Service.py_get_or Service.hret].
  unfold Service.hbind at 1. cbn [Service.py_get_or Service.hret].
  rewrite Hn, Hp. cbn [default from_option id].
  unfold Service.hbind at 1. cbn [Service.lift Service.py_len].
  destruct (Z.ltb_spec (Z.of_nat (length names)) 2) as [Hlt|_]; [lia|].
  unfold Service.hbind at 1. cbn [Service.lift Service.py_iter].
  destruct (comparison_rows_return names pds 0 o Hd) as (rows & o1 & Hrows).
  unfold request_ratings in *. rewrite Hrows in *. cbn [fst] in *.
  unfold Service.hbind at 1. rewrite Hrows.
  unfold Service.hbind, Service.lift, Service.unbound_local, Service.hraise.
  destruct Hmean as [v1 ->]. destruct Hlo as [v2 ->].
  destruct Hhi as [v3 ->]. destruct Hbest as [v4 ->].
  reflexivity.
Qed.

(** The request is a JSON object whose [player_name] is missing or
    falsy. *)
Definition missing_name (req : body) : Prop :=
  exists d : gmap string pyval,
    req = Json (PyDict d) /\
    Service.py_truthy float_nonzero (default (PyStr EmptyString) (d !! "player_name")) = false.

(** X18: [analyze_player] always answers, with 200, 400 or 500.  It
    answers 400 exactly when the request is a JSON object without a
    truthy [player_name], then with the fixed error message and before
    anything is drawn; a request that is no JSON object gets 500; and
    200 is the answer only when the analysis itself goes through. *)
Theorem analyze_player_validation (req : body) (o : Service.oracle) :
  let run := Service.analyze_player err_str float_nonzero analysis req o in
  exists resp,
    fst run = inl resp /\
    (status_code resp = 200 \/ status_code resp = 400 \/ status_code resp = 500) /\
    (status_code resp = 400 <-> missing_name req) /\
    (status_code resp = 400 ->
       resp = Service.jsonify (Service.error_body "Player name is required") 400 /\
       snd run = o) /\
    ((forall d, req <> Json (PyDict d)) -> status_code resp = 500) /\
    (status_code resp = 200 ->
       exists d result o',
         req = Json (PyDict d) /\
         analysis (default (PyStr EmptyString) (d !! "player_name"))
                  (default (PyDict ∅) (d !! "player_data")) o = (inl result, o') /\
         payload resp = Json result).
Proof.
  cbn zeta. unfold missing_name, Service.analyze_player, Service.htry.
  destruct req as [|v].
  { eexists. split; [reflexivity|]. cbn.
    split; [auto|]. split; [split; [discriminate | intros (d & [=] & _)]|].
    split; [discriminate|]. split; [reflexivity | discriminate]. }
  destruct v as [| | | | | |d];
    try (eexists; split; [reflexivity|]; cbn;
         split; [auto|]; split; [split; [discriminate | intros (d & [=] & _)]|];
         split; [discriminate|]; split; [reflexivity | discriminate]).
  unfold Service.hbind, Service.get_json, Service.py_get_or, Service.hret.
  destruct (Service.py_truthy float_nonzero (default (PyStr EmptyString) (d !! "player_name")))
    eqn:Hname; cbn [negb].
  - destruct (analysis _ _ o) as [[result|e] o'] eqn:Ha.
    + eexists. split; [reflexivity|]. cbn.
      split; [auto|]. split; [split; [discriminate|]|].
      { intros (d' & [= <-] & Hf). congruence. }
      split; [discriminate|]. split; [intros Hno; destruct (Hno d eq_refl)|].
      intros _. exists d, result, o'. auto.
    + eexists. split; [reflexivity|]. cbn.
      split; [auto|]. split; [split; [discriminate|]|].
      { intros (d' & [= <-] & Hf). congruence. }
      split; [discriminate|]. split; [reflexivity | discriminate].
  - eexists. split; [reflexivity|]. cbn.
    split; [auto|]. split; [split; [intros _; eauto | reflexivity]|].
    split; [intros _; split; reflexivity|].
    split; [intros Hno; destruct (Hno d eq_refl) | discriminate].
Qed.
End ServiceFacts.

(** Statistics for the example below.  Like [sum], [min] and [max] they
    fail on an empty list and on a rating that is no number; on a list
    that starts with a number they answer that number, and the row 0. *)
Definition first_rating (l : list pyval) : pyval + Service.pyerr :=
  match l with
  | PyInt z :: _ => inl (PyInt z)
  | PyFloat x :: _ => inl (PyFloat x)
  | _ => inr Service.TypeErr
  end.
Definition first_row (l : list pyval) : nat + Service.pyerr :=
  match l with
  | PyInt _ :: _ | PyFloat _ :: _ => inl 0%nat
  | _ => inr Service.TypeErr
  end.

(** A request that compares two players by name. *)
Definition two_players : gmap string pyval :=
  <[ "player_names" := PyList [PyStr "Ada"; PyStr "Bea"] ]>
    {[ "players_data" := PyList [] ]}.

Lemma compare_players_valid_request_fails_witness :
  fst (Service.compare_players plain_str (fun _ => "unbound") (fun _ => true)
         first_rating first_rating first_rating first_row
         (Json (PyDict two_players)) (Service.mkOracle [] []))
  = inl (Service.jsonify (Service.error_body ("Comparison failed: " +:+ "unbound")) 500).
Proof.
  apply (compare_players_valid_request_fails plain_str (fun _ => "unbound")
           (fun _ => true) first_rating first_rating first_rating first_row two_players
           [PyStr "Ada"; PyStr "Bea"] [] (Service.mkOracle [] [])).
  - reflexivity.
  - cbn. lia.
  - reflexivity.
  - constructor.
  - eexists. reflexivity.
  - eexists. reflexivity.
  - eexists. reflexivity.
  - eexists. reflexivity.
Defined.
